(** * MTicker: the streaming market-data client of src/lib/ticker.ts

    A shallow embedding of the binary tick decoder, the subscription
    registry and the reconnection logic of [MTicker], together with the
    two helpers of [Utils] it calls, and the properties the
    specification states about them.

    Conventions of the embedding.
    - An [ArrayBuffer] is a [list byte]; a [DataView] read that leaves the
      buffer raises [RangeError] in JavaScript and is [None] here.
    - Offsets, lengths, identifiers and raw wire values are integers ([Z]).
    - A JavaScript number that results from a division is kept as the exact
      rational ([Q]) [raw / divisor]; the rounding of the IEEE double is not
      tracked.
    - A [Date] is its number of milliseconds since 1970-01-01T00:00:00Z.
    - [Set<number>] is a [gset Z] and [Map<number, string>] a [gmap Z mode];
      the iteration order of the JavaScript containers is not modelled.
    - [console] output, messages sent on the socket and callback
      invocations are recorded in the client state. *)

From Stdlib Require Import ZArith QArith List Strings.Byte.
From stdpp Require Import base option list gmap strings pretty.

Local Open Scope Z_scope.
Set Warnings "-clear-no-such-hyp".

(** ** The DataView *)

Module DataView.

Definition t := list byte.

Definition byteLength (view : t) : Z := Z.of_nat (length view).

Definition octet (b : byte) : Z := Z.of_N (Byte.to_N b).

(** Big-endian value of a run of bytes. *)
Definition be (bs : list byte) : Z :=
  foldl (fun acc b => acc * 256 + octet b) 0 bs.

(** The bytes [off .. off + n - 1] of the buffer. *)
Definition slice (view : t) (off : Z) (n : nat) : list byte :=
  take n (drop (Z.to_nat off) view).

Definition raw16 (view : t) (off : Z) : Z := be (slice view off 2).
Definition raw32 (view : t) (off : Z) : Z := be (slice view off 4).

Definition in_bounds (view : t) (off n : Z) : bool :=
  (0 <=? off) && (off + n <=? byteLength view).

(** [view.getUint16(off, false)] *)
Definition getUint16 (view : t) (off : Z) : option Z :=
  if in_bounds view off 2 then Some (raw16 view off) else None.

(** [view.getUint32(off, false)] *)
Definition getUint32 (view : t) (off : Z) : option Z :=
  if in_bounds view off 4 then Some (raw32 view off) else None.

End DataView.

Import DataView.

(** ** Utils *)

Module Utils.

(** [ToInt32], the conversion JavaScript applies to the operands of [&]. *)
Definition toInt32 (x : Z) : Z :=
  let m := x mod 2 ^ 32 in
  if m <? 2 ^ 31 then m else m - 2 ^ 32.

(** Days between 1970-01-01 and the civil date [y-m-d] (proleptic
    Gregorian calendar). *)
Definition days_from_civil (y m d : Z) : Z :=
  let y' := if m <=? 2 then y - 1 else y in
  let era := y' / 400 in
  let yoe := y' - era * 400 in
  let mp := (m + 9) mod 12 in
  let doy := (153 * mp + 2) / 5 + d - 1 in
  let doe := yoe * 365 + yoe / 4 - yoe / 100 + doy in
  era * 146097 + doe - 719468.

(** [new Date('1980-01-01T00:00:00Z').getTime()] *)
Definition baseDate : Z := days_from_civil 1980 1 1 * 86400000.

(** A [Date], as milliseconds since the Unix epoch. *)
Definition Date := Z.

Definition unixToDateTime (unixTimeStamp : Z) : Date :=
  baseDate + unixTimeStamp * 1000.

Definition getDecimalDivisor (instrumentToken : Z) : Z :=
  let segment := Z.land (toInt32 instrumentToken) 255 in
  match segment with
  | 3 => 10000000
  | 6 => 10000
  | _ => 100
  end.

End Utils.

(** ** FeedData *)

Inductive mode := Ltp | Quote | Full.

#[global] Instance mode_eq_dec : EqDecision mode.
Proof. solve_decision. Defined.

Definition number := Q.

Definition num (z : Z) : number := inject_Z z.

(** [raw / divisor] *)
Definition scaled (raw divisor : Z) : number := (num raw / num divisor)%Q.

Record DepthItem := {
  Quantity : number;
  Price : number;
  Orders : number
}.

(** Every property of [FeedData] is optional: [None] is an absent
    property.  The two dates are [Date | null]: [Some None] is [null]. *)
Record FeedData := {
  Mode : option mode;
  InstrumentToken : option Z;
  Tradable : option bool;
  LastPrice : option number;
  LastQuantity : option number;
  AveragePrice : option number;
  Volume : option number;
  BuyQuantity : option number;
  SellQuantity : option number;
  Open : option number;
  High : option number;
  Low : option number;
  Close : option number;
  Change : option number;
  Bids : option (list DepthItem);
  Offers : option (list DepthItem);
  LastTradeTime : option (option Utils.Date);
  OI : option number;
  OIDayHigh : option number;
  OIDayLow : option number;
  Timestamp : option (option Utils.Date);
  UpperCircuit : option number;
  LowerCircuit : option number;
  YearHigh : option number;
  YearLow : option number
}.

(** The object [{}]. *)
Definition empty_feed : FeedData :=
  {| Mode := None; InstrumentToken := None; Tradable := None;
     LastPrice := None; LastQuantity := None; AveragePrice := None;
     Volume := None; BuyQuantity := None; SellQuantity := None;
     Open := None; High := None; Low := None; Close := None;
     Change := None; Bids := None; Offers := None; LastTradeTime := None;
     OI := None; OIDayHigh := None; OIDayLow := None; Timestamp := None;
     UpperCircuit := None; LowerCircuit := None; YearHigh := None;
     YearLow := None |}.

(** [(instrumentToken & 0xff) !== 9] *)
Definition tradable (instrumentToken : Z) : bool :=
  negb (Z.land (Utils.toInt32 instrumentToken) 255 =? 9).

(** ** The client state *)

(** [WebSocket.readyState] *)
Inductive readyState := CONNECTING | OPEN | CLOSING | CLOSED.

#[global] Instance readyState_eq_dec : EqDecision readyState.
Proof. solve_decision. Defined.

Inductive level := log | warn | error.

(** Text frames the client writes to its socket. *)
Inductive message :=
  | Login
  | Subscription (action : string) (tokens : list Z)
  | SetMode (m : mode) (tokens : list Z)
  | SubscribeWithMode (m : mode) (tokens : list Z).

(** What the client does to the world around it, oldest first. *)
Inductive effect :=
  | Console (l : level) (text : string)
  | Send (socket : nat) (msg : message)
  | NewSocket (socket : nat)
  | CloseSocket (socket : nat)
  | SetTimeout (delay : Z)
  | OnBroadcastReceived (tick : FeedData)
  | OnConnect
  | OnClose
  | OnError
  | OnReconnecting (attempt maxAttempts : Z).

(** The fields of [MTicker].  [sockets] holds the ready state of every
    [WebSocket] the client has created, in creation order, and [ws] names
    the one [this.ws] refers to; [timers] counts the reconnection timers
    that are armed and have not fired; [out] records the effects. *)
Record MTicker := {
  maxReconnectionAttempts : Z;
  reconnectDelay : Z;
  ws : option nat;
  sockets : list readyState;
  reconnectionAttempts : Z;
  subscribedTokens : gset Z;
  currentMode : mode;
  tokenModes : gmap Z mode;
  isManualClose : bool;
  timers : nat;
  out : list effect
}.

Record MTickerConfig := {
  cfg_maxReconnectionAttempts : option Z;
  cfg_reconnectDelay : option Z
}.

(** [x || d] on an optional number: [undefined] and [0] give [d]. *)
Definition or_default (x : option Z) (d : Z) : Z :=
  match x with
  | Some v => if v =? 0 then d else v
  | None => d
  end.

Definition constructor (config : MTickerConfig) : MTicker :=
  {| maxReconnectionAttempts := or_default (cfg_maxReconnectionAttempts config) 5;
     reconnectDelay := or_default (cfg_reconnectDelay config) 5000;
     ws := None; sockets := [];
     reconnectionAttempts := 0;
     subscribedTokens := ∅;
     currentMode := Full;
     tokenModes := ∅;
     isManualClose := false;
     timers := 0%nat;
     out := [] |}.

Definition with_ws (v : option nat) (this : MTicker) : MTicker :=
  {| maxReconnectionAttempts := maxReconnectionAttempts this;
     reconnectDelay := reconnectDelay this;
     ws := v; sockets := sockets this;
     reconnectionAttempts := reconnectionAttempts this;
     subscribedTokens := subscribedTokens this;
     currentMode := currentMode this; tokenModes := tokenModes this;
     isManualClose := isManualClose this; timers := timers this;
     out := out this |}.

Definition with_sockets (v : list readyState) (this : MTicker) : MTicker :=
  {| maxReconnectionAttempts := maxReconnectionAttempts this;
     reconnectDelay := reconnectDelay this;
     ws := ws this; sockets := v;
     reconnectionAttempts := reconnectionAttempts this;
     subscribedTokens := subscribedTokens this;
     currentMode := currentMode this; tokenModes := tokenModes this;
     isManualClose := isManualClose this; timers := timers this;
     out := out this |}.

Definition with_reconnectionAttempts (v : Z) (this : MTicker) : MTicker :=
  {| maxReconnectionAttempts := maxReconnectionAttempts this;
     reconnectDelay := reconnectDelay this;
     ws := ws this; sockets := sockets this;
     reconnectionAttempts := v;
     subscribedTokens := subscribedTokens this;
     currentMode := currentMode this; tokenModes := tokenModes this;
     isManualClose := isManualClose this; timers := timers this;
     out := out this |}.

Definition with_subscribedTokens (v : gset Z) (this : MTicker) : MTicker :=
  {| maxReconnectionAttempts := maxReconnectionAttempts this;
     reconnectDelay := reconnectDelay this;
     ws := ws this; sockets := sockets this;
     reconnectionAttempts := reconnectionAttempts this;
     subscribedTokens := v;
     currentMode := currentMode this; tokenModes := tokenModes this;
     isManualClose := isManualClose this; timers := timers this;
     out := out this |}.

Definition with_modes (c : mode) (v : gmap Z mode) (this : MTicker) : MTicker :=
  {| maxReconnectionAttempts := maxReconnectionAttempts this;
     reconnectDelay := reconnectDelay this;
     ws := ws this; sockets := sockets this;
     reconnectionAttempts := reconnectionAttempts this;
     subscribedTokens := subscribedTokens this;
     currentMode := c; tokenModes := v;
     isManualClose := isManualClose this; timers := timers this;
     out := out this |}.

Definition with_isManualClose (v : bool) (this : MTicker) : MTicker :=
  {| maxReconnectionAttempts := maxReconnectionAttempts this;
     reconnectDelay := reconnectDelay this;
     ws := ws this; sockets := sockets this;
     reconnectionAttempts := reconnectionAttempts this;
     subscribedTokens := subscribedTokens this;
     currentMode := currentMode this; tokenModes := tokenModes this;
     isManualClose := v; timers := timers this;
     out := out this |}.

Definition with_timers (v : nat) (this : MTicker) : MTicker :=
  {| maxReconnectionAttempts := maxReconnectionAttempts this;
     reconnectDelay := reconnectDelay this;
     ws := ws this; sockets := sockets this;
     reconnectionAttempts := reconnectionAttempts this;
     subscribedTokens := subscribedTokens this;
     currentMode := currentMode this; tokenModes := tokenModes this;
     isManualClose := isManualClose this; timers := v;
     out := out this |}.

(** Append effects to the record of the client. *)
Definition emit (es : list effect) (this : MTicker) : MTicker :=
  {| maxReconnectionAttempts := maxReconnectionAttempts this;
     reconnectDelay := reconnectDelay this;
     ws := ws this; sockets := sockets this;
     reconnectionAttempts := reconnectionAttempts this;
     subscribedTokens := subscribedTokens this;
     currentMode := currentMode this; tokenModes := tokenModes this;
     isManualClose := isManualClose this; timers := timers this;
     out := out this ++ es |}.

(** [this.ws && this.ws.readyState === WebSocket.OPEN] *)
Definition ws_open (this : MTicker) : bool :=
  match ws this with
  | Some s => bool_decide (sockets this !! s = Some OPEN)
  | None => false
  end.

(** ** The decoder *)

(** [this.tokenModes.get(token) || 'full'] *)
Definition getTokenMode (this : MTicker) (token : Z) : mode :=
  default Full (tokenModes this !! token).

Definition readLTPBroadcast (view : DataView.t) (offset : Z) : option FeedData :=
  instrumentToken ← getUint32 view offset;
  let divisor := Utils.getDecimalDivisor instrumentToken in
  lastPrice ← getUint32 view (offset + 4);
  Some {| InstrumentToken := Some instrumentToken;
          Mode := Some Ltp;
          LastPrice := Some (scaled lastPrice divisor);
          Tradable := Some (tradable instrumentToken);
          LastQuantity := None; AveragePrice := None; Volume := None;
          BuyQuantity := None; SellQuantity := None; Open := None;
          High := None; Low := None; Close := None; Change := None;
          Bids := None; Offers := None; LastTradeTime := None; OI := None;
          OIDayHigh := None; OIDayLow := None; Timestamp := None;
          UpperCircuit := None; LowerCircuit := None; YearHigh := None;
          YearLow := None |}.

Definition readQuoteIndex (view : DataView.t) (offset : Z) : option FeedData :=
  instrumentToken ← getUint32 view offset;
  let divisor := Utils.getDecimalDivisor instrumentToken in
  lastPrice ← getUint32 view (offset + 4);
  high ← getUint32 view (offset + 8);
  low ← getUint32 view (offset + 12);
  open ← getUint32 view (offset + 16);
  close ← getUint32 view (offset + 20);
  change ← getUint32 view (offset + 24);
  Some {| Mode := Some Quote;
          InstrumentToken := Some instrumentToken;
          Tradable := Some (tradable instrumentToken);
          LastPrice := Some (scaled lastPrice divisor);
          High := Some (scaled high divisor);
          Low := Some (scaled low divisor);
          Open := Some (scaled open divisor);
          Close := Some (scaled close divisor);
          Change := Some (scaled change divisor);
          LastQuantity := None; AveragePrice := None; Volume := None;
          BuyQuantity := None; SellQuantity := None;
          Bids := None; Offers := None; LastTradeTime := None; OI := None;
          OIDayHigh := None; OIDayLow := None; Timestamp := None;
          UpperCircuit := None; LowerCircuit := None; YearHigh := None;
          YearLow := None |}.

Definition readFullIndex (this : MTicker) (view : DataView.t) (offset : Z)
  : option FeedData :=
  instrumentToken ← getUint32 view offset;
  let requestedMode := getTokenMode this instrumentToken in
  let divisor := Utils.getDecimalDivisor instrumentToken in
  lastPrice ← (λ r, scaled r divisor) <$> getUint32 view (offset + 4);
  high ← (λ r, scaled r divisor) <$> getUint32 view (offset + 8);
  low ← (λ r, scaled r divisor) <$> getUint32 view (offset + 12);
  open ← (λ r, scaled r divisor) <$> getUint32 view (offset + 16);
  close ← (λ r, scaled r divisor) <$> getUint32 view (offset + 20);
  time ← getUint32 view (offset + 28);
  match requestedMode with
  | Quote =>
      Some {| Mode := Some Quote;
              InstrumentToken := Some instrumentToken;
              Tradable := Some (tradable instrumentToken);
              LastPrice := Some lastPrice;
              High := Some high; Low := Some low;
              Open := Some open; Close := Some close;
              Change := Some (lastPrice - close)%Q;
              LastQuantity := None; AveragePrice := None; Volume := None;
              BuyQuantity := None; SellQuantity := None;
              Bids := None; Offers := None; LastTradeTime := None;
              OI := None; OIDayHigh := None; OIDayLow := None;
              Timestamp := None;
              UpperCircuit := None; LowerCircuit := None; YearHigh := None;
              YearLow := None |}
  | Ltp =>
      Some {| Mode := Some Ltp;
              InstrumentToken := Some instrumentToken;
              Tradable := Some (tradable instrumentToken);
              LastPrice := Some lastPrice;
              LastQuantity := None; AveragePrice := None; Volume := None;
              BuyQuantity := None; SellQuantity := None; Open := None;
              High := None; Low := None; Close := None; Change := None;
              Bids := None; Offers := None; LastTradeTime := None;
              OI := None; OIDayHigh := None; OIDayLow := None;
              Timestamp := None;
              UpperCircuit := None; LowerCircuit := None; YearHigh := None;
              YearLow := None |}
  | Full =>
      Some {| Mode := Some Full;
              InstrumentToken := Some instrumentToken;
              Tradable := Some (tradable instrumentToken);
              LastPrice := Some lastPrice;
              High := Some high; Low := Some low;
              Open := Some open; Close := Some close;
              Change := Some (lastPrice - close)%Q;
              Timestamp := Some (Some (Utils.unixToDateTime time));
              LastQuantity := None; AveragePrice := None; Volume := None;
              BuyQuantity := None; SellQuantity := None;
              Bids := None; Offers := None; LastTradeTime := None;
              OI := None; OIDayHigh := None; OIDayLow := None;
              UpperCircuit := None; LowerCircuit := None; YearHigh := None;
              YearLow := None |}
  end.

Definition readQuote (view : DataView.t) (offset : Z) : option FeedData :=
  instrumentToken ← getUint32 view offset;
  let divisor := Utils.getDecimalDivisor instrumentToken in
  lastPrice ← getUint32 view (offset + 4);
  lastQuantity ← getUint32 view (offset + 8);
  averagePrice ← getUint32 view (offset + 12);
  volume ← getUint32 view (offset + 16);
  buyQuantity ← getUint32 view (offset + 20);
  sellQuantity ← getUint32 view (offset + 24);
  open ← getUint32 view (offset + 28);
  high ← getUint32 view (offset + 32);
  low ← getUint32 view (offset + 36);
  close ← getUint32 view (offset + 40);
  Some {| Mode := Some Quote;
          InstrumentToken := Some instrumentToken;
          Tradable := Some (tradable instrumentToken);
          LastPrice := Some (scaled lastPrice divisor);
          LastQuantity := Some (num lastQuantity);
          AveragePrice := Some (scaled averagePrice divisor);
          Volume := Some (num volume);
          BuyQuantity := Some (num buyQuantity);
          SellQuantity := Some (num sellQuantity);
          Open := Some (scaled open divisor);
          High := Some (scaled high divisor);
          Low := Some (scaled low divisor);
          Close := Some (scaled close divisor);
          Change := None;
          Bids := None; Offers := None; LastTradeTime := None; OI := None;
          OIDayHigh := None; OIDayLow := None; Timestamp := None;
          UpperCircuit := None; LowerCircuit := None; YearHigh := None;
          YearLow := None |}.

(** The five iterations of a depth loop of [readFullFeed], from [off]. *)
Fixpoint readDepth (view : DataView.t) (divisor : Z) (n : nat) (off : Z)
  : option (list DepthItem) :=
  match n with
  | O => Some []
  | S n' =>
      quantity ← getUint32 view off;
      price ← getUint32 view (off + 4);
      orders ← getUint16 view (off + 8);
      rest ← readDepth view divisor n' (off + 12);
      Some ({| Quantity := num quantity;
               Price := scaled price divisor;
               Orders := num orders |} :: rest)
  end.

(** [length] is not used by the body, as in the source. *)
Definition readFullFeed (view : DataView.t) (offset length : Z) : option FeedData :=
  instrumentToken ← getUint32 view offset;
  let divisor := Utils.getDecimalDivisor instrumentToken in
  lastPrice ← getUint32 view (offset + 4);
  close ← getUint32 view (offset + 40);
  lastQuantity ← getUint32 view (offset + 8);
  averagePrice ← getUint32 view (offset + 12);
  volume ← getUint32 view (offset + 16);
  buyQuantity ← getUint32 view (offset + 20);
  sellQuantity ← getUint32 view (offset + 24);
  open ← getUint32 view (offset + 28);
  high ← getUint32 view (offset + 32);
  low ← getUint32 view (offset + 36);
  lastTradeTime ← getUint32 view (offset + 44);
  oi ← getUint32 view (offset + 48);
  oiDayHigh ← getUint32 view (offset + 52);
  oiDayLow ← getUint32 view (offset + 56);
  timestamp ← getUint32 view (offset + 60);
  let bidOffset := offset + 64 in
  bids ← readDepth view divisor 5 bidOffset;
  let offerOffset := bidOffset + 60 in
  offers ← readDepth view divisor 5 offerOffset;
  let offerOffset := offerOffset + 60 in
  upperCircuit ← getUint32 view offerOffset;
  lowerCircuit ← getUint32 view (offerOffset + 4);
  yearHigh ← getUint32 view (offerOffset + 8);
  yearLow ← getUint32 view (offerOffset + 12);
  Some {| Mode := Some Full;
          InstrumentToken := Some instrumentToken;
          Tradable := Some (tradable instrumentToken);
          LastPrice := Some (scaled lastPrice divisor);
          LastQuantity := Some (num lastQuantity);
          AveragePrice := Some (scaled averagePrice divisor);
          Volume := Some (num volume);
          BuyQuantity := Some (num buyQuantity);
          SellQuantity := Some (num sellQuantity);
          Open := Some (scaled open divisor);
          High := Some (scaled high divisor);
          Low := Some (scaled low divisor);
          Close := Some (scaled close divisor);
          Change := Some 0%Q;
          LastTradeTime := Some (Some (Utils.unixToDateTime lastTradeTime));
          OI := Some (num oi);
          OIDayHigh := Some (num oiDayHigh);
          OIDayLow := Some (num oiDayLow);
          Timestamp := Some (Some (Utils.unixToDateTime timestamp));
          Bids := Some bids;
          Offers := Some offers;
          UpperCircuit := Some (scaled upperCircuit divisor);
          LowerCircuit := Some (scaled lowerCircuit divisor);
          YearHigh := Some (scaled yearHigh divisor);
          YearLow := Some (scaled yearLow divisor) |}.

Definition createQuoteFromPacket (view : DataView.t) (offset length : Z)
  : option FeedData :=
  instrumentToken ← getUint32 view offset;
  let divisor := Utils.getDecimalDivisor instrumentToken in
  lastPrice ← getUint32 view (offset + 4);
  lastQuantity ←
    (if 12 <=? length then num <$> getUint32 view (offset + 8) else Some 0%Q);
  averagePrice ←
    (if 16 <=? length
     then (λ r, scaled r divisor) <$> getUint32 view (offset + 12) else Some 0%Q);
  volume ←
    (if 20 <=? length then num <$> getUint32 view (offset + 16) else Some 0%Q);
  buyQuantity ←
    (if 24 <=? length then num <$> getUint32 view (offset + 20) else Some 0%Q);
  sellQuantity ←
    (if 28 <=? length then num <$> getUint32 view (offset + 24) else Some 0%Q);
  open ←
    (if 32 <=? length
     then (λ r, scaled r divisor) <$> getUint32 view (offset + 28) else Some 0%Q);
  high ←
    (if 36 <=? length
     then (λ r, scaled r divisor) <$> getUint32 view (offset + 32) else Some 0%Q);
  low ←
    (if 40 <=? length
     then (λ r, scaled r divisor) <$> getUint32 view (offset + 36) else Some 0%Q);
  close ←
    (if 44 <=? length
     then (λ r, scaled r divisor) <$> getUint32 view (offset + 40) else Some 0%Q);
  Some {| Mode := Some Quote;
          InstrumentToken := Some instrumentToken;
          Tradable := Some (tradable instrumentToken);
          LastPrice := Some (scaled lastPrice divisor);
          LastQuantity := Some lastQuantity;
          AveragePrice := Some averagePrice;
          Volume := Some volume;
          BuyQuantity := Some buyQuantity;
          SellQuantity := Some sellQuantity;
          Open := Some open; High := Some high; Low := Some low;
          Close := Some close;
          Change := None;
          Bids := None; Offers := None; LastTradeTime := None; OI := None;
          OIDayHigh := None; OIDayLow := None; Timestamp := None;
          UpperCircuit := None; LowerCircuit := None; YearHigh := None;
          YearLow := None |}.

Definition createLTPFromPacket (view : DataView.t) (offset instrumentToken : Z)
  : option FeedData :=
  let divisor := Utils.getDecimalDivisor instrumentToken in
  lastPrice ← getUint32 view (offset + 4);
  Some {| Mode := Some Ltp;
          InstrumentToken := Some instrumentToken;
          Tradable := Some (tradable instrumentToken);
          LastPrice := Some (scaled lastPrice divisor);
          LastQuantity := Some 0%Q;
          AveragePrice := Some 0%Q;
          Volume := Some 0%Q;
          BuyQuantity := Some 0%Q;
          SellQuantity := Some 0%Q;
          Open := Some 0%Q; High := Some 0%Q; Low := Some 0%Q;
          Close := Some 0%Q;
          Change := Some 0%Q;
          LastTradeTime := Some None;
          OI := Some 0%Q; OIDayHigh := Some 0%Q; OIDayLow := Some 0%Q;
          Timestamp := Some None;
          Bids := None; Offers := None;
          UpperCircuit := None; LowerCircuit := None; YearHigh := None;
          YearLow := None |}.

Definition readModeBasedData (this : MTicker) (view : DataView.t)
    (offset length : Z) : option FeedData :=
  instrumentToken ← getUint32 view offset;
  let requestedMode := getTokenMode this instrumentToken in
  match requestedMode with
  | Quote => createQuoteFromPacket view offset length
  | Ltp => createLTPFromPacket view offset instrumentToken
  | Full =>
      if length =? 44 then readQuote view offset
      else readFullFeed view offset length
  end.

(** The [switch] of [parseTickData]: [None] is the [default] branch,
    [Some r] the result of the reader of that length, where [r = None]
    is an exception thrown by the reader. *)
Definition dispatch (this : MTicker) (view : DataView.t) (offset length : Z)
  : option (option FeedData) :=
  match length with
  | 8 => Some (readLTPBroadcast view offset)
  | 28 => Some (readQuoteIndex view offset)
  | 32 => Some (readFullIndex this view offset)
  | 44 | 184 | 200 => Some (readModeBasedData this view offset length)
  | _ => None
  end.

(** Returns the tick, or [None] for [null], and what was written to the
    console; the [try] leaves no exception to the caller. *)
Definition parseTickData (this : MTicker) (view : DataView.t) (offset length : Z)
  : option FeedData * list effect :=
  match dispatch this view offset length with
  | Some (Some tick) => (Some tick, [])
  | Some None => (None, [Console error "Error parsing tick data:"])
  | None => (None, [Console warn ("Unknown packet length: " +:+ pretty length)])
  end.

(** How a call ends. *)
Inductive completion := Normal | Thrown.

(** The [for] loop of [parseBinaryMessage] with [count] iterations left,
    at [offset]: the effects in order, and how the loop ends. *)
Fixpoint parseRecords (this : MTicker) (view : DataView.t) (count : nat)
    (offset : Z) : list effect * completion :=
  match count with
  | O => ([], Normal)
  | S count' =>
      if byteLength view <=? offset then ([], Normal)
      else
        match getUint16 view offset with
        | None => ([], Thrown)
        | Some length =>
            let offset := offset + 2 in
            let '(tick, logged) := parseTickData this view offset length in
            let called :=
              match tick with
              | Some t => [OnBroadcastReceived t]
              | None => []
              end in
            let '(rest, c) := parseRecords this view count' (offset + length) in
            (logged ++ called ++ rest, c)
        end
  end.

Definition parseBinaryMessage (this : MTicker) (data : DataView.t)
  : list effect * completion :=
  match getUint16 data 0 with
  | None => ([], Thrown)
  | Some count => parseRecords this data (Z.to_nat count) 2
  end.

Definition handleBinaryMessage (this : MTicker) (data : DataView.t)
  : MTicker * completion :=
  match parseBinaryMessage this data with
  | (es, Normal) => (emit es this, Normal)
  | (es, Thrown) =>
      (emit (es ++ [Console error "Failed to parse binary message:"]) this,
       Normal)
  end.

(** ** The subscription registry *)

Definition sendSubscriptionMessage (action : string) (tokens : list Z)
    (this : MTicker) : MTicker :=
  match ws this with
  | Some s =>
      if bool_decide (sockets this !! s = Some OPEN)
      then emit [Send s (Subscription action tokens)] this
      else emit [Console warn
                   ("Cannot " +:+ action +:+ ": WebSocket is not connected")] this
  | None =>
      emit [Console warn
              ("Cannot " +:+ action +:+ ": WebSocket is not connected")] this
  end.

(** [tokens.forEach(token => set.add(token))] *)
Definition add_all (tokens : list Z) (set : gset Z) : gset Z :=
  foldl (λ acc token, {[token]} ∪ acc) set tokens.

(** [tokens.forEach(token => set.delete(token))] *)
Definition delete_all (tokens : list Z) (set : gset Z) : gset Z :=
  foldl (λ acc token, acc ∖ {[token]}) set tokens.

(** [tokens.forEach(token => map.set(token, mode))] *)
Definition set_all (m : mode) (tokens : list Z) (map : gmap Z mode) : gmap Z mode :=
  foldl (λ acc token, <[token:=m]> acc) map tokens.

Definition subscribe (tokens : list Z) (this : MTicker) : MTicker :=
  if bool_decide (tokens = [])
  then emit [Console warn "Invalid tokens provided for subscription"] this
  else
    let this := with_subscribedTokens (add_all tokens (subscribedTokens this)) this in
    sendSubscriptionMessage "subscribe" tokens this.

Definition unsubscribe (tokens : list Z) (this : MTicker) : MTicker :=
  if bool_decide (tokens = [])
  then emit [Console warn "Invalid tokens provided for unsubscription"] this
  else
    let this := with_subscribedTokens (delete_all tokens (subscribedTokens this)) this in
    sendSubscriptionMessage "unsubscribe" tokens this.

Definition setMode (m : mode) (tokens : list Z) (this : MTicker) : MTicker :=
  let this := with_modes m (set_all m tokens (tokenModes this)) this in
  match ws this with
  | Some s =>
      if bool_decide (sockets this !! s = Some OPEN)
      then emit [Send s (SetMode m tokens)] this
      else this
  | None => this
  end.

Definition subscribeWithMode (m : mode) (tokens : list Z) (this : MTicker)
  : MTicker :=
  match ws this with
  | Some s =>
      if bool_decide (sockets this !! s = Some OPEN)
      then
        let this := emit [Send s (SubscribeWithMode m tokens)] this in
        with_subscribedTokens (add_all tokens (subscribedTokens this)) this
      else this
  | None => this
  end.

Definition getSubscribedTokens (this : MTicker) : list Z :=
  elements (subscribedTokens this).

Definition resubscribeTokens (this : MTicker) : MTicker :=
  if bool_decide (0 < size (subscribedTokens this))%nat
  then sendSubscriptionMessage "subscribe" (elements (subscribedTokens this)) this
  else this.

Definition sendLoginAfterConnect (this : MTicker) : MTicker :=
  match ws this with
  | Some s =>
      if bool_decide (sockets this !! s = Some OPEN)
      then resubscribeTokens (emit [Send s Login] this)
      else this
  | None => this
  end.

(** ** The connection manager *)

Definition isConnected (this : MTicker) : bool := ws_open this.

Definition scheduleReconnection (this : MTicker) : MTicker :=
  if (reconnectionAttempts this <? maxReconnectionAttempts this)
     && negb (isManualClose this)
  then
    let this := with_reconnectionAttempts (reconnectionAttempts this + 1) this in
    let this := emit [OnReconnecting (reconnectionAttempts this)
                                     (maxReconnectionAttempts this)] this in
    emit [SetTimeout (reconnectDelay this)] (with_timers (S (timers this)) this)
  else if maxReconnectionAttempts this <=? reconnectionAttempts this
  then emit [Console error "Max reconnection attempts reached"] this
  else this.

(** [constructed] tells whether [new WebSocket(url)] returns; when it
    throws, [this.ws] keeps its value. *)
Definition createWebSocketConnection (constructed : bool) (this : MTicker)
  : MTicker :=
  if constructed
  then
    let s := length (sockets this) in
    emit [NewSocket s]
      (with_ws (Some s) (with_sockets (sockets this ++ [CONNECTING]) this))
  else
    scheduleReconnection
      (emit [Console error "Failed to create WebSocket connection:"] this).

Definition connect (constructed : bool) (this : MTicker) : MTicker :=
  if ws_open this
  then emit [Console warn "WebSocket is already connected"] this
  else createWebSocketConnection constructed (with_isManualClose false this).

Definition handleOpen (this : MTicker) : MTicker :=
  let this := emit [Console log "WebSocket connected"] this in
  let this := with_reconnectionAttempts 0 this in
  emit [OnConnect] this.

Definition handleError (this : MTicker) : MTicker :=
  let this := emit [Console error "WebSocket error:"] this in
  let this := emit [OnError] this in
  scheduleReconnection this.

Definition handleClose (this : MTicker) : MTicker :=
  let this := emit [Console log "WebSocket connection closed"] this in
  let this := emit [OnClose] this in
  if negb (isManualClose this) then scheduleReconnection this else this.

(** [ws.close()]: an open or connecting socket starts closing. *)
Definition closing (r : readyState) : readyState :=
  match r with
  | CLOSED => CLOSED
  | _ => CLOSING
  end.

Definition disconnect (this : MTicker) : MTicker :=
  let this := with_isManualClose true this in
  let this :=
    match ws this with
    | Some s =>
        let this := with_sockets (alter closing s (sockets this)) this in
        with_ws None (emit [CloseSocket s] this)
    | None => this
    end in
  let this := with_subscribedTokens ∅ this in
  with_reconnectionAttempts 0 this.

(** The callback given to [setTimeout] by [scheduleReconnection]. *)
Definition timeout (constructed : bool) (this : MTicker) : MTicker :=
  match timers this with
  | O => this
  | S n =>
      let this := with_timers n this in
      if negb (isManualClose this)
      then createWebSocketConnection constructed this
      else this
  end.

(** What happens to the client: the events of its sockets and timers, and
    the calls of the application.  The handlers are bound to the client,
    not to [this.ws], so a socket the client no longer refers to still
    reaches them. *)
Inductive event :=
  | SocketOpen (s : nat)
  | SocketError (s : nat)
  | SocketClose (s : nat)
  | SocketBinary (s : nat) (data : DataView.t)
  | Timeout (constructed : bool)
  | CallConnect (constructed : bool)
  | CallDisconnect
  | CallSubscribe (tokens : list Z)
  | CallUnsubscribe (tokens : list Z)
  | CallSetMode (m : mode) (tokens : list Z)
  | CallSubscribeWithMode (m : mode) (tokens : list Z)
  | CallSendLoginAfterConnect.

Definition step (this : MTicker) (e : event) : MTicker :=
  match e with
  | SocketOpen s => handleOpen (with_sockets (<[s:=OPEN]> (sockets this)) this)
  | SocketError s => handleError this
  | SocketClose s => handleClose (with_sockets (<[s:=CLOSED]> (sockets this)) this)
  | SocketBinary s data => fst (handleBinaryMessage this data)
  | Timeout constructed => timeout constructed this
  | CallConnect constructed => connect constructed this
  | CallDisconnect => disconnect this
  | CallSubscribe tokens => subscribe tokens this
  | CallUnsubscribe tokens => unsubscribe tokens this
  | CallSetMode m tokens => setMode m tokens this
  | CallSubscribeWithMode m tokens => subscribeWithMode m tokens this
  | CallSendLoginAfterConnect => sendLoginAfterConnect this
  end.

Definition run (es : list event) (this : MTicker) : MTicker :=
  foldl step this es.

(** * Properties *)

(** ** The price scaler *)

Section PriceScaler.

Lemma toInt32_mod_256 (x : Z) : Utils.toInt32 x mod 256 = x mod 256.
Proof.
  unfold Utils.toInt32.
  assert (Hm : (x mod 2 ^ 32) mod 256 = x mod 256).
  { apply Z.mod_mod_divide. exists 16777216. reflexivity. }
  destruct (x mod 2 ^ 32 <? 2 ^ 31); [exact Hm|].
  change (2 ^ 32) with (16777216 * 256) at 2.
  rewrite <- Hm.
  replace (x mod 2 ^ 32 - 16777216 * 256)
    with (x mod 2 ^ 32 + (- 16777216) * 256) by lia.
  apply Z.mod_add; lia.
Qed.

(** [instrumentToken & 0xff] is [instrumentToken mod 256]. *)
Lemma segment_mod_256 (x : Z) : Z.land (Utils.toInt32 x) 255 = x mod 256.
Proof.
  change 255 with (Z.ones 8).
  rewrite Z.land_ones by lia.
  apply toInt32_mod_256.
Qed.

Lemma segment_range (x : Z) : 0 <= Z.land (Utils.toInt32 x) 255 < 256.
Proof. rewrite segment_mod_256. apply Z.mod_pos_bound; lia. Qed.

Lemma getDecimalDivisor_cases (i : Z) :
  Utils.getDecimalDivisor i =
    if i mod 256 =? 3 then 10000000
    else if i mod 256 =? 6 then 10000 else 100.
Proof.
  unfold Utils.getDecimalDivisor. rewrite segment_mod_256.
  destruct (Z.eqb_spec (i mod 256) 3) as [->|H3]; [reflexivity|].
  destruct (Z.eqb_spec (i mod 256) 6) as [->|H6]; [reflexivity|].
  destruct (i mod 256) as [|p|p]; try reflexivity.
  repeat (destruct p as [p|p|]; try reflexivity; try congruence).
Qed.

Lemma getDecimalDivisor_pos (i : Z) : 0 < Utils.getDecimalDivisor i.
Proof. rewrite getDecimalDivisor_cases. repeat case_match; lia. Qed.

End PriceScaler.

(** C2.  For every instrument identifier [i] the divisor is defined (the
    function is total and has no error case) and is decided by [i mod 256]
    alone: 10,000,000 when the low eight bits are 3, 10,000 when they are
    6, and 100 otherwise; so it is one of 100, 10,000 and 10,000,000, it
    is positive, and two identifiers with the same low byte have the same
    divisor. *)
Theorem getDecimalDivisor_low_byte :
  ∀ i : Z,
    Utils.getDecimalDivisor i =
      (if i mod 256 =? 3 then 10000000
       else if i mod 256 =? 6 then 10000 else 100)
    ∧ (Utils.getDecimalDivisor i = 100
       ∨ Utils.getDecimalDivisor i = 10000
       ∨ Utils.getDecimalDivisor i = 10000000)
    ∧ 0 < Utils.getDecimalDivisor i
    ∧ (∀ j : Z, i mod 256 = j mod 256 →
         Utils.getDecimalDivisor i = Utils.getDecimalDivisor j).
Proof.
  intros i. split; [apply getDecimalDivisor_cases|].
  split.
  { rewrite getDecimalDivisor_cases. repeat case_match; auto. }
  split; [apply getDecimalDivisor_pos|].
  intros j Hj. rewrite !getDecimalDivisor_cases, Hj. reflexivity.
Qed.

Lemma getDecimalDivisor_low_byte_witness :
  408065 mod 256 = 1 mod 256
  ∧ Utils.getDecimalDivisor 408065 = Utils.getDecimalDivisor 1.
Proof.
  assert (H : 408065 mod 256 = 1 mod 256) by reflexivity.
  split; [exact H|].
  destruct (getDecimalDivisor_low_byte 408065) as (_ & _ & _ & Hsame).
  exact (Hsame 1 H).
Defined.

(** ** Frames for the examples *)

Module Fixture.

Definition byte_of (z : Z) : byte :=
  default Byte.x00 (Byte.of_N (Z.to_N (z mod 256))).

Definition u16 (z : Z) : list byte := [byte_of (z / 256); byte_of z].

Definition u32 (z : Z) : list byte :=
  [byte_of (z / 16777216); byte_of (z / 65536); byte_of (z / 256); byte_of z].

(** A record: its length prefix and its 32-bit words. *)
Definition record (length : Z) (words : list Z) : list byte :=
  u16 length ++ concat (map u32 words).

(** A frame: the record count and the records. *)
Definition frame (count : Z) (records : list (list byte)) : list byte :=
  u16 count ++ concat records.

(** [n] words, the i-th being [base + i]. *)
Definition words (base : Z) (n : nat) : list Z :=
  map (λ i, base + Z.of_nat i) (seq 0 n).

Definition fresh : MTicker :=
  constructor {| cfg_maxReconnectionAttempts := None;
                 cfg_reconnectDelay := None |}.

End Fixture.

(** ** Reads of the DataView *)

Arguments raw16 : simpl never.
Arguments raw32 : simpl never.
Arguments scaled : simpl never.
Arguments num : simpl never.
Arguments tradable : simpl never.
Arguments Utils.getDecimalDivisor : simpl never.
Arguments Utils.unixToDateTime : simpl never.

Section Reads.

Context (view : DataView.t).

Lemma in_bounds_true (off n : Z) :
  in_bounds view off n = true ↔ 0 <= off ∧ off + n <= byteLength view.
Proof. unfold in_bounds. rewrite andb_true_iff. lia. Qed.

Lemma getUint32_in (off : Z) :
  0 <= off ∧ off + 4 <= byteLength view →
  getUint32 view off = Some (raw32 view off).
Proof.
  intros H. unfold getUint32.
  apply in_bounds_true in H. rewrite H. reflexivity.
Qed.

Lemma getUint16_in (off : Z) :
  0 <= off ∧ off + 2 <= byteLength view →
  getUint16 view off = Some (raw16 view off).
Proof.
  intros H. unfold getUint16.
  apply in_bounds_true in H. rewrite H. reflexivity.
Qed.

Lemma getUint32_Some (off x : Z) :
  getUint32 view off = Some x →
  x = raw32 view off ∧ 0 <= off ∧ off + 4 <= byteLength view.
Proof.
  unfold getUint32. destruct (in_bounds view off 4) eqn:E; [|discriminate].
  apply in_bounds_true in E. intros [= <-]. auto.
Qed.

Lemma getUint16_Some (off x : Z) :
  getUint16 view off = Some x →
  x = raw16 view off ∧ 0 <= off ∧ off + 2 <= byteLength view.
Proof.
  unfold getUint16. destruct (in_bounds view off 2) eqn:E; [|discriminate].
  apply in_bounds_true in E. intros [= <-]. auto.
Qed.

Lemma getUint32_out (off : Z) :
  byteLength view < off + 4 → getUint32 view off = None.
Proof.
  intros H. unfold getUint32.
  destruct (in_bounds view off 4) eqn:E; [|reflexivity].
  apply in_bounds_true in E. lia.
Qed.

End Reads.

(** Replace every read of the goal that the context shows in bounds by
    the value it returns. *)
Ltac reads :=
  repeat match goal with
    | |- context [getUint32 ?v ?o] => rewrite (getUint32_in v o) by lia
    | |- context [getUint16 ?v ?o] => rewrite (getUint16_in v o) by lia
    end.

(** Take the reads of a successful reader apart, one at a time, keeping
    for each the bound it proves. *)
Ltac unread H :=
  repeat
    (let x := fresh "x" in
     let E := fresh "E" in
     apply bind_Some in H; destruct H as (x & E & H);
     try (apply fmap_Some in E; destruct E as (? & E & ->));
     first [ apply getUint32_Some in E; destruct E as (-> & ? & ?)
           | apply getUint16_Some in E; destruct E as (-> & ? & ?)
           | idtac ]).

Arguments readDepth : simpl never.

(** The depth entry found at [off]. *)
Definition depthAt (view : DataView.t) (divisor off : Z) : DepthItem :=
  {| Quantity := num (raw32 view off);
     Price := scaled (raw32 view (off + 4)) divisor;
     Orders := num (raw16 view (off + 8)) |}.

Section Depth.

Context (view : DataView.t) (divisor : Z).

Lemma readDepth_S (n : nat) (off : Z) :
  readDepth view divisor (S n) off =
    (quantity ← getUint32 view off;
     price ← getUint32 view (off + 4);
     orders ← getUint16 view (off + 8);
     rest ← readDepth view divisor n (off + 12);
     Some ({| Quantity := num quantity;
              Price := scaled price divisor;
              Orders := num orders |} :: rest)).
Proof. reflexivity. Qed.

Lemma readDepth_in (n : nat) (off : Z) :
  0 <= off → off + 12 * Z.of_nat n <= byteLength view + 2 →
  readDepth view divisor n off =
    Some (map (λ i, depthAt view divisor (off + 12 * Z.of_nat i)) (seq 0 n)).
Proof.
  revert off. induction n as [|n IH]; intros off H0 Hn; [reflexivity|].
  rewrite readDepth_S. reads. simpl.
  rewrite IH by lia. simpl.
  rewrite <- seq_shift, map_map.
  f_equal. f_equal.
  - replace (off + 12 * Z.of_nat 0) with off by lia. reflexivity.
  - apply map_ext. intros i. f_equal. lia.
Qed.

Lemma readDepth_Some (n : nat) (off : Z) (l : list DepthItem) :
  readDepth view divisor (S n) off = Some l →
  0 <= off ∧ off + 12 * Z.of_nat (S n) <= byteLength view + 2.
Proof.
  revert off l. induction n as [|n IH]; intros off l H.
  - rewrite readDepth_S in H. unread H. lia.
  - rewrite readDepth_S in H. unread H.
    match goal with
    | E : readDepth _ _ (S n) _ = Some _ |- _ => apply IH in E
    end.
    lia.
Qed.

End Depth.

(** ** Which records yield a tick *)

(** The number of bytes, counted from the start of the record, that the
    reader of a record of [length] bytes touches when the requested mode
    of the identifier is [m]; [None] for a length that has no reader. *)
Definition reach (m : mode) (length : Z) : option Z :=
  match length with
  | 8 => Some 8
  | 28 => Some 28
  | 32 => Some 32
  | 44 => Some (match m with Ltp => 8 | _ => 44 end)
  | 184 | 200 => Some (match m with Ltp => 8 | Quote => 44 | Full => 200 end)
  | _ => None
  end.

Definition supported (length : Z) : Prop :=
  length = 8 ∨ length = 28 ∨ length = 32 ∨ length = 44 ∨ length = 184
  ∨ length = 200.

Lemma dispatch_unsupported this view offset length :
  ¬ supported length → dispatch this view offset length = None.
Proof.
  unfold supported. intros H.
  destruct length as [|p|p]; try reflexivity.
  repeat (destruct p as [p|p|]; try reflexivity; try (exfalso; lia)).
Qed.

Lemma reach_unsupported m length : ¬ supported length → reach m length = None.
Proof.
  unfold supported. intros H.
  destruct length as [|p|p]; try reflexivity.
  repeat (destruct p as [p|p|]; try reflexivity; try (exfalso; lia)).
Qed.

Section Readers.

Context (this : MTicker) (view : DataView.t) (offset : Z).
Hypothesis offset_nonneg : 0 <= offset.

(** Settle "the reader returns a tick exactly when its reads are in
    bounds" for a reader whose body is a sequence of reads. *)
Local Ltac tick_iff :=
  split;
  [ intros [tick Htick]; unread Htick; lia
  | intros Hb; reads; simpl; eauto ].

Lemma readLTPBroadcast_tick :
  is_Some (readLTPBroadcast view offset) ↔ offset + 8 <= byteLength view.
Proof. unfold readLTPBroadcast. tick_iff. Qed.

Lemma readQuoteIndex_tick :
  is_Some (readQuoteIndex view offset) ↔ offset + 28 <= byteLength view.
Proof. unfold readQuoteIndex. tick_iff. Qed.

Lemma readFullIndex_tick :
  is_Some (readFullIndex this view offset) ↔ offset + 32 <= byteLength view.
Proof.
  unfold readFullIndex. split.
  - intros [tick Htick]. unread Htick. lia.
  - intros Hb. reads. simpl.
    destruct (getTokenMode this (raw32 view offset)); eauto.
Qed.

Lemma readQuote_tick :
  is_Some (readQuote view offset) ↔ offset + 44 <= byteLength view.
Proof. unfold readQuote. tick_iff. Qed.

Lemma readFullFeed_tick length :
  is_Some (readFullFeed view offset length) ↔ offset + 200 <= byteLength view.
Proof.
  unfold readFullFeed. split.
  - intros [tick Htick]. unread Htick. lia.
  - intros Hb. reads. simpl.
    rewrite !readDepth_in by lia. simpl. eauto.
Qed.

Lemma createLTPFromPacket_tick token :
  is_Some (createLTPFromPacket view offset token)
  ↔ offset + 8 <= byteLength view.
Proof. unfold createLTPFromPacket. tick_iff. Qed.

Lemma createQuoteFromPacket_tick length :
  44 <= length →
  is_Some (createQuoteFromPacket view offset length)
  ↔ offset + 44 <= byteLength view.
Proof.
  intros Hl. unfold createQuoteFromPacket.
  repeat match goal with
    | |- context [?k <=? length] =>
        replace (k <=? length) with true by (symmetry; apply Z.leb_le; lia)
    end.
  tick_iff.
Qed.

Lemma readModeBasedData_tick length r :
  length = 44 ∨ length = 184 ∨ length = 200 →
  reach (getTokenMode this (raw32 view offset)) length = Some r →
  is_Some (readModeBasedData this view offset length)
  ↔ offset + r <= byteLength view.
Proof.
  intros Hl Hr. unfold readModeBasedData.
  destruct (getUint32 view offset) as [token|] eqn:E; simpl.
  - apply getUint32_Some in E. destruct E as (-> & _ & Hb).
    destruct (getTokenMode this (raw32 view offset)).
    + rewrite createLTPFromPacket_tick.
      destruct Hl as [->|[->| ->]]; simpl in Hr; injection Hr as <-; reflexivity.
    + rewrite createQuoteFromPacket_tick by lia.
      destruct Hl as [->|[->| ->]]; simpl in Hr; injection Hr as <-; reflexivity.
    + destruct Hl as [->|[->| ->]]; simpl in Hr; injection Hr as <-; simpl.
      * apply readQuote_tick.
      * apply readFullFeed_tick.
      * apply readFullFeed_tick.
  - split; [intros [? [=]]|].
    intros Hb. assert (4 <= r).
    { destruct Hl as [->|[->| ->]];
        destruct (getTokenMode this (raw32 view offset));
        simpl in Hr; injection Hr as <-; lia. }
    rewrite getUint32_in in E by lia. discriminate E.
Qed.

(** A record yields a tick exactly when its length has a reader and
    everything that reader touches lies inside the buffer. *)
Lemma parseTickData_tick length :
  is_Some (fst (parseTickData this view offset length))
  ↔ ∃ r, reach (getTokenMode this (raw32 view offset)) length = Some r
         ∧ offset + r <= byteLength view.
Proof.
  assert (Hfst : is_Some (fst (parseTickData this view offset length))
                 ↔ ∃ o, dispatch this view offset length = Some o ∧ is_Some o).
  { unfold parseTickData.
    destruct (dispatch this view offset length) as [[tick|]|]; simpl.
    - split; eauto.
    - split; [intros [? [=]]|intros (o & [= <-] & [? [=]])].
    - split; [intros [? [=]]|intros (o & [=] & _)]. }
  rewrite Hfst. clear Hfst.
  destruct (decide (supported length)) as [Hs|Hs].
  - destruct Hs as [->|[->|[->|Hm]]].
    + change (dispatch this view offset 8)
        with (Some (readLTPBroadcast view offset)).
      split.
      * intros (o & [= <-] & Ho). exists 8. split; [reflexivity|].
        apply readLTPBroadcast_tick, Ho.
      * intros (r & [= <-] & Hr). eexists. split; [reflexivity|].
        apply readLTPBroadcast_tick, Hr.
    + change (dispatch this view offset 28)
        with (Some (readQuoteIndex view offset)).
      split.
      * intros (o & [= <-] & Ho). exists 28. split; [reflexivity|].
        apply readQuoteIndex_tick, Ho.
      * intros (r & [= <-] & Hr). eexists. split; [reflexivity|].
        apply readQuoteIndex_tick, Hr.
    + change (dispatch this view offset 32)
        with (Some (readFullIndex this view offset)).
      split.
      * intros (o & [= <-] & Ho). exists 32. split; [reflexivity|].
        apply readFullIndex_tick, Ho.
      * intros (r & [= <-] & Hr). eexists. split; [reflexivity|].
        apply readFullIndex_tick, Hr.
    + assert (Hd : dispatch this view offset length
                   = Some (readModeBasedData this view offset length)).
      { destruct Hm as [->|[->| ->]]; reflexivity. }
      rewrite Hd. split.
      * intros (o & [= <-] & Ho).
        destruct (reach (getTokenMode this (raw32 view offset)) length)
          as [r|] eqn:Hr.
        -- exists r. split; [reflexivity|].
           apply (readModeBasedData_tick length r Hm Hr). exact Ho.
        -- destruct Hm as [->|[->| ->]]; discriminate Hr.
      * intros (r & Hr & Hb). eexists. split; [reflexivity|].
        apply (readModeBasedData_tick length r Hm Hr). exact Hb.
  - rewrite dispatch_unsupported, reach_unsupported by exact Hs.
    split; [intros (o & [=] & _)|intros (r & [=] & _)].
Qed.

End Readers.

(** ** What a decoded record holds *)

Section Registry.

Lemma add_all_union (tokens : list Z) (set : gset Z) :
  add_all tokens set = set ∪ list_to_set tokens.
Proof.
  unfold add_all. revert set.
  induction tokens as [|t ts IH]; intros set; simpl.
  - set_solver.
  - rewrite IH. set_solver.
Qed.

Lemma delete_all_difference (tokens : list Z) (set : gset Z) :
  delete_all tokens set = set ∖ list_to_set tokens.
Proof.
  unfold delete_all. revert set.
  induction tokens as [|t ts IH]; intros set; simpl.
  - set_solver.
  - rewrite IH. set_solver.
Qed.

Lemma set_all_lookup (m : mode) (tokens : list Z) (map : gmap Z mode) (t : Z) :
  set_all m tokens map !! t = if decide (t ∈ tokens) then Some m else map !! t.
Proof.
  unfold set_all. revert map.
  induction tokens as [|t' ts IH]; intros map; simpl.
  - reflexivity.
  - rewrite IH. destruct (decide (t ∈ ts)) as [Hin|Hin].
    + rewrite decide_True by set_solver. reflexivity.
    + destruct (decide (t = t')) as [->|Hne].
      * rewrite decide_True by set_solver. apply lookup_insert_eq.
      * rewrite decide_False by set_solver. apply lookup_insert_ne. congruence.
Qed.

Lemma tokenModes_setMode m tokens this :
  tokenModes (setMode m tokens this) = set_all m tokens (tokenModes this).
Proof.
  unfold setMode. simpl.
  destruct (ws this); [|reflexivity].
  destruct (bool_decide _); reflexivity.
Qed.

(** The mode the decoder uses for a token is the one of the latest
    [setMode] that named it. *)
Lemma getTokenMode_setMode m tokens this t :
  getTokenMode (setMode m tokens this) t =
    if decide (t ∈ tokens) then m else getTokenMode this t.
Proof.
  unfold getTokenMode. rewrite tokenModes_setMode, set_all_lookup.
  destruct (decide (t ∈ tokens)); reflexivity.
Qed.

End Registry.

(** The [Mode] of the tick of a record of [length] bytes whose identifier
    has the requested mode [m]. *)
Definition emittedMode (m : mode) (length : Z) : mode :=
  match length with
  | 8 => Ltp
  | 28 => Quote
  | 44 => match m with Ltp => Ltp | _ => Quote end
  | _ => m
  end.

(** [x] is a 32-bit word of the record divided by the divisor, or the
    zero of a field that was not read. *)
Definition price_of (view : DataView.t) (offset length divisor : Z) (x : number)
  : Prop :=
  x = 0%Q
  ∨ ∃ k, x = scaled (raw32 view (offset + k)) divisor ∧ 0 <= k ∧ k + 4 <= length.

(** [x] is a 32-bit word of the record as it is, or zero. *)
Definition quantity_of (view : DataView.t) (offset length : Z) (x : number)
  : Prop :=
  x = 0%Q ∨ ∃ k, x = num (raw32 view (offset + k)) ∧ 0 <= k ∧ k + 4 <= length.

(** [d] is the twelve bytes at some place of the record, price scaled. *)
Definition depth_of (view : DataView.t) (offset length divisor : Z) (d : DepthItem)
  : Prop :=
  ∃ k, d = depthAt view divisor (offset + k) ∧ 0 <= k ∧ k + 12 <= length.

(** The fields of a tick that hold prices, those that are present. *)
Definition prices (tick : FeedData) : list number :=
  omap id [LastPrice tick; AveragePrice tick; Open tick; High tick; Low tick;
           Close tick; UpperCircuit tick; LowerCircuit tick; YearHigh tick;
           YearLow tick].

(** The fields of a tick that hold quantities, those that are present. *)
Definition quantities (tick : FeedData) : list number :=
  omap id [LastQuantity tick; Volume tick; BuyQuantity tick; SellQuantity tick;
           OI tick; OIDayHigh tick; OIDayLow tick].

Definition depth (tick : FeedData) : list DepthItem :=
  default [] (Bids tick) ++ default [] (Offers tick).

(** [Change] is absent, zero, the scaled word at offset 24, or
    [LastPrice - Close]. *)
Definition change_of (view : DataView.t) (offset divisor : Z) (tick : FeedData)
  : Prop :=
  Change tick = None
  ∨ Change tick = Some 0%Q
  ∨ Change tick = Some (scaled (raw32 view (offset + 24)) divisor)
  ∨ ∃ p c, LastPrice tick = Some p ∧ Close tick = Some c
           ∧ Change tick = Some (p - c)%Q.

(** The claim of the specification at one record: a tick, whose mode is
    the requested one, and whose numeric fields are all scaled words. *)
Definition decoded_as_requested (this : MTicker) (view : DataView.t)
    (offset length : Z) : Prop :=
  let t := raw32 view offset in
  ∃ tick,
    fst (parseTickData this view offset length) = Some tick
    ∧ Mode tick = Some (getTokenMode this t)
    ∧ Forall (λ x, ∃ k, x = scaled (raw32 view (offset + k))
                              (Utils.getDecimalDivisor t))
        (prices tick ++ quantities tick).

Arguments depthAt : simpl never.

(** The goals about the fields of an evaluated tick of the record at [o]. *)
Ltac wire_field o :=
  first
    [ left; reflexivity
    | right;
      lazymatch goal with
      | |- ∃ k, ?x = _ ∧ _ =>
          lazymatch x with
          | context [raw32 _ ?e] =>
              exists (e - o); split;
              [ replace (o + (e - o)) with e by lia; reflexivity | lia ]
          end
      end ].

Ltac wire_fields o :=
  repeat (apply List.Forall_cons; [wire_field o|]); try apply List.Forall_nil.

Ltac wire_depth o :=
  repeat (apply List.Forall_cons;
          [ lazymatch goal with
            | |- depth_of _ _ _ _ (depthAt _ _ ?x) =>
                exists (x - o); split; [f_equal; lia | lia]
            end |]);
  try apply List.Forall_nil.

Ltac wire_change :=
  first
    [ left; reflexivity
    | right; left; reflexivity
    | right; right; left; reflexivity
    | right; right; right; eexists _, _; repeat split; reflexivity ].

(** Finish the goal about a record once the reader has been evaluated. *)
Ltac decoded o :=
  eexists; split; [reflexivity|];
  unfold price_of, quantity_of, change_of, prices, quantities, depth;
  simpl;
  repeat lazymatch goal with
    | |- _ ∧ _ => split
    end;
  [ reflexivity | reflexivity | reflexivity
  | wire_fields o | wire_fields o | wire_depth o | wire_change ].

Section Decoded.

Context (this : MTicker) (view : DataView.t) (offset : Z).
Hypothesis offset_nonneg : 0 <= offset.

Let t := raw32 view offset.
Let d := Utils.getDecimalDivisor (raw32 view offset).

(** What the tick of a record says, whenever all that its reader
    touches is in the buffer. *)
Definition decoded_from (length : Z) (tick : FeedData) : Prop :=
  Mode tick = Some (emittedMode (getTokenMode this t) length)
  ∧ InstrumentToken tick = Some t
  ∧ LastPrice tick = Some (scaled (raw32 view (offset + 4)) d)
  ∧ Forall (price_of view offset length d) (prices tick)
  ∧ Forall (quantity_of view offset length) (quantities tick)
  ∧ Forall (depth_of view offset length d) (depth tick)
  ∧ change_of view offset d tick.

Lemma decoded_8 :
  offset + 8 <= byteLength view →
  ∃ tick, parseTickData this view offset 8 = (Some tick, [])
          ∧ decoded_from 8 tick.
Proof.
  intros Hb. unfold parseTickData, decoded_from, t, d.
  change (dispatch this view offset 8)
    with (Some (readLTPBroadcast view offset)).
  unfold readLTPBroadcast. reads. simpl. decoded offset.
Qed.

Lemma decoded_28 :
  offset + 28 <= byteLength view →
  ∃ tick, parseTickData this view offset 28 = (Some tick, [])
          ∧ decoded_from 28 tick.
Proof.
  intros Hb. unfold parseTickData, decoded_from, t, d.
  change (dispatch this view offset 28)
    with (Some (readQuoteIndex view offset)).
  unfold readQuoteIndex. reads. simpl. decoded offset.
Qed.

Lemma decoded_32 :
  offset + 32 <= byteLength view →
  ∃ tick, parseTickData this view offset 32 = (Some tick, [])
          ∧ decoded_from 32 tick.
Proof.
  intros Hb. unfold parseTickData, decoded_from, t, d.
  change (dispatch this view offset 32)
    with (Some (readFullIndex this view offset)).
  unfold readFullIndex. reads. simpl.
  destruct (getTokenMode this (raw32 view offset)); decoded offset.
Qed.

Lemma decoded_44 :
  offset + 44 <= byteLength view →
  ∃ tick, parseTickData this view offset 44 = (Some tick, [])
          ∧ decoded_from 44 tick.
Proof.
  intros Hb. unfold parseTickData, decoded_from, t, d.
  change (dispatch this view offset 44)
    with (Some (readModeBasedData this view offset 44)).
  unfold readModeBasedData. reads. simpl.
  destruct (getTokenMode this (raw32 view offset)).
  - unfold createLTPFromPacket. reads. simpl. decoded offset.
  - unfold createQuoteFromPacket. reads. simpl. decoded offset.
  - unfold readQuote. reads. simpl. decoded offset.
Qed.

Lemma decoded_trimmed length :
  length = 184 ∨ length = 200 →
  offset + 44 <= byteLength view →
  getTokenMode this (raw32 view offset) ≠ Full →
  ∃ tick, parseTickData this view offset length = (Some tick, [])
          ∧ decoded_from length tick.
Proof.
  intros Hl Hb Hm. unfold parseTickData, decoded_from, t, d.
  assert (Hd : dispatch this view offset length
               = Some (readModeBasedData this view offset length)).
  { destruct Hl as [->| ->]; reflexivity. }
  rewrite Hd. unfold readModeBasedData. reads. simpl.
  destruct (getTokenMode this (raw32 view offset)); [| |congruence].
  - unfold createLTPFromPacket. reads. simpl.
    destruct Hl as [->| ->]; decoded offset.
  - unfold createQuoteFromPacket. reads.
    destruct Hl as [->| ->]; simpl; decoded offset.
Qed.

Lemma decoded_200 :
  offset + 200 <= byteLength view →
  ∃ tick, parseTickData this view offset 200 = (Some tick, [])
          ∧ decoded_from 200 tick.
Proof.
  intros Hb.
  destruct (decide (getTokenMode this (raw32 view offset) = Full)) as [Hm|Hm].
  - unfold parseTickData, decoded_from, t, d.
    change (dispatch this view offset 200)
      with (Some (readModeBasedData this view offset 200)).
    unfold readModeBasedData. reads. simpl. rewrite Hm.
    change (200 =? 44) with false. cbv iota.
    unfold readFullFeed. reads. simpl.
    rewrite !readDepth_in by lia. simpl. decoded offset.
  - apply decoded_trimmed; [auto|lia|exact Hm].
Qed.

End Decoded.

(** One eight-byte record: identifier 408065, raw price 250050. *)
Definition ltp_frame : DataView.t :=
  Fixture.frame 1 [Fixture.record 8 [408065; 250050]].

(** C1, as the specification states it, fails: no mode was ever requested
    for identifier 408065, so its requested mode is [Full], yet the tick
    of its eight-byte record has mode [Ltp]. *)
Lemma decoded_as_requested_fails :
  supported 8
  ∧ 4 + 8 <= byteLength ltp_frame
  ∧ raw32 ltp_frame 4 = 408065
  ∧ tokenModes Fixture.fresh !! 408065 = None
  ∧ ¬ decoded_as_requested Fixture.fresh ltp_frame 4 8.
Proof.
  split; [left; reflexivity|].
  split; [vm_compute; discriminate|].
  split; [reflexivity|].
  split; [reflexivity|].
  intros (tick & Htick & Hmode & _).
  vm_compute in Htick. injection Htick as <-.
  vm_compute in Hmode. discriminate Hmode.
Qed.

(** The tick of [createLTPFromPacket] for identifier [t] and raw price
    [raw]: identifier, tradability flag and last price, zeros and nulls
    elsewhere, neither depth nor circuit limits. *)
Definition ltp_only (t raw : Z) : FeedData :=
  {| Mode := Some Ltp;
     InstrumentToken := Some t;
     Tradable := Some (tradable t);
     LastPrice := Some (scaled raw (Utils.getDecimalDivisor t));
     LastQuantity := Some 0%Q; AveragePrice := Some 0%Q; Volume := Some 0%Q;
     BuyQuantity := Some 0%Q; SellQuantity := Some 0%Q;
     Open := Some 0%Q; High := Some 0%Q; Low := Some 0%Q; Close := Some 0%Q;
     Change := Some 0%Q;
     LastTradeTime := Some None;
     OI := Some 0%Q; OIDayHigh := Some 0%Q; OIDayLow := Some 0%Q;
     Timestamp := Some None;
     Bids := None; Offers := None;
     UpperCircuit := None; LowerCircuit := None;
     YearHigh := None; YearLow := None |}.

(** C3.  When the requested mode of the identifier of a 44-, 184- or
    200-byte record is [Ltp], the record yields the tick that holds the
    identifier, the tradability flag and the last price (the word at
    offset 4 divided by the divisor of the identifier); every other
    numeric field is zero, both timestamps are null, and depth and
    circuit limits are absent. *)
Theorem ltp_mode_trims_record :
  ∀ (this : MTicker) (view : DataView.t) (offset length : Z),
    0 <= offset →
    length = 44 ∨ length = 184 ∨ length = 200 →
    offset + length <= byteLength view →
    getTokenMode this (raw32 view offset) = Ltp →
    parseTickData this view offset length =
      (Some (ltp_only (raw32 view offset) (raw32 view (offset + 4))), []).
Proof.
  intros this view offset length H0 Hl Hb Hm. unfold parseTickData.
  assert (Hd : dispatch this view offset length
               = Some (readModeBasedData this view offset length)).
  { destruct Hl as [->|[->| ->]]; reflexivity. }
  rewrite Hd. unfold readModeBasedData.
  rewrite (getUint32_in view offset) by lia. simpl. rewrite Hm.
  unfold createLTPFromPacket.
  rewrite (getUint32_in view (offset + 4)) by lia. reflexivity.
Qed.

(** A 184-byte record for identifier 5633, whose words after the first
    are 100, 101, ... *)
Definition full_184_frame : DataView.t :=
  Fixture.frame 1 [Fixture.record 184 (5633 :: Fixture.words 100 45)].

Lemma ltp_mode_trims_record_witness :
  (0 <= 4 ∧ 4 + 184 <= byteLength full_184_frame
   ∧ getTokenMode (setMode Ltp [5633] Fixture.fresh) (raw32 full_184_frame 4)
     = Ltp)
  ∧ parseTickData (setMode Ltp [5633] Fixture.fresh) full_184_frame 4 184
    = (Some (ltp_only 5633 100), []).
Proof.
  assert (H0 : 0 <= 4) by lia.
  assert (Hb : 4 + 184 <= byteLength full_184_frame)
    by (vm_compute; discriminate).
  assert (Hm : getTokenMode (setMode Ltp [5633] Fixture.fresh)
                 (raw32 full_184_frame 4) = Ltp) by reflexivity.
  split; [auto|].
  exact (ltp_mode_trims_record (setMode Ltp [5633] Fixture.fresh)
           full_184_frame 4 184 H0 (or_intror (or_introl eq_refl)) Hb Hm).
Defined.

(** ** The 32-byte index record *)

Section IndexRecord.

Context (view : DataView.t) (offset : Z).

Let t := raw32 view offset.
Let d := Utils.getDecimalDivisor (raw32 view offset).
Let lastPrice := scaled (raw32 view (offset + 4)) d.
Let high := scaled (raw32 view (offset + 8)) d.
Let low := scaled (raw32 view (offset + 12)) d.
Let open := scaled (raw32 view (offset + 16)) d.
Let close := scaled (raw32 view (offset + 20)) d.
Let time := raw32 view (offset + 28).

(** The three ticks of [readFullIndex]. *)
Definition index_quote : FeedData :=
  {| Mode := Some Quote;
     InstrumentToken := Some t;
     Tradable := Some (tradable t);
     LastPrice := Some lastPrice;
     High := Some high; Low := Some low;
     Open := Some open; Close := Some close;
     Change := Some (lastPrice - close)%Q;
     LastQuantity := None; AveragePrice := None; Volume := None;
     BuyQuantity := None; SellQuantity := None;
     Bids := None; Offers := None; LastTradeTime := None;
     OI := None; OIDayHigh := None; OIDayLow := None;
     Timestamp := None;
     UpperCircuit := None; LowerCircuit := None; YearHigh := None;
     YearLow := None |}.

Definition index_ltp : FeedData :=
  {| Mode := Some Ltp;
     InstrumentToken := Some t;
     Tradable := Some (tradable t);
     LastPrice := Some lastPrice;
     LastQuantity := None; AveragePrice := None; Volume := None;
     BuyQuantity := None; SellQuantity := None; Open := None;
     High := None; Low := None; Close := None; Change := None;
     Bids := None; Offers := None; LastTradeTime := None;
     OI := None; OIDayHigh := None; OIDayLow := None;
     Timestamp := None;
     UpperCircuit := None; LowerCircuit := None; YearHigh := None;
     YearLow := None |}.

(** The timestamp is [time] seconds after 1980-01-01T00:00:00Z, in
    milliseconds since 1970-01-01T00:00:00Z. *)
Definition index_full : FeedData :=
  {| Mode := Some Full;
     InstrumentToken := Some t;
     Tradable := Some (tradable t);
     LastPrice := Some lastPrice;
     High := Some high; Low := Some low;
     Open := Some open; Close := Some close;
     Change := Some (lastPrice - close)%Q;
     Timestamp :=
       Some (Some (Utils.days_from_civil 1980 1 1 * 86400000 + time * 1000));
     LastQuantity := None; AveragePrice := None; Volume := None;
     BuyQuantity := None; SellQuantity := None;
     Bids := None; Offers := None; LastTradeTime := None;
     OI := None; OIDayHigh := None; OIDayLow := None;
     UpperCircuit := None; LowerCircuit := None; YearHigh := None;
     YearLow := None |}.

End IndexRecord.

Lemma parseTickData_32 (this : MTicker) (view : DataView.t) (offset : Z) :
  0 <= offset →
  offset + 32 <= byteLength view →
  parseTickData this view offset 32 =
    (Some (match getTokenMode this (raw32 view offset) with
           | Quote => index_quote view offset
           | Ltp => index_ltp view offset
           | Full => index_full view offset
           end), []).
Proof.
  intros H0 Hb. unfold parseTickData.
  change (dispatch this view offset 32)
    with (Some (readFullIndex this view offset)).
  unfold readFullIndex. reads. simpl.
  destruct (getTokenMode this (raw32 view offset)); reflexivity.
Qed.

(** C4.  A 32-byte record inside the buffer yields one tick, chosen by
    the requested mode of the identifier in its first four bytes: under
    [Quote] the quote fields with [Change = LastPrice - Close]; under
    [Ltp] the identifier and the last price; otherwise, under mode
    [Full], the scaled fields with the same [Change] and the timestamp,
    which is the word at offset 28 counted in seconds from
    1980-01-01T00:00:00Z (315532800 seconds after the Unix epoch). *)
Theorem readFullIndex_by_mode :
  ∀ (this : MTicker) (view : DataView.t) (offset : Z),
    0 <= offset →
    offset + 32 <= byteLength view →
    parseTickData this view offset 32 =
      (Some (match getTokenMode this (raw32 view offset) with
             | Quote => index_quote view offset
             | Ltp => index_ltp view offset
             | Full => index_full view offset
             end), [])
    ∧ Utils.days_from_civil 1980 1 1 * 86400 = 315532800.
Proof.
  intros this view offset H0 Hb. split; [|reflexivity].
  apply parseTickData_32; assumption.
Qed.

(** A 32-byte record of the index 265 (low byte 9). *)
Definition index_frame : DataView.t :=
  Fixture.frame 1
    [Fixture.record 32 [265; 2500050; 2510000; 2490000; 2495000; 2480000; 0; 86400]].

Lemma readFullIndex_by_mode_witness :
  (0 <= 4 ∧ 4 + 32 <= byteLength index_frame)
  ∧ parseTickData (setMode Quote [265] Fixture.fresh) index_frame 4 32
    = (Some (index_quote index_frame 4), []).
Proof.
  assert (H0 : 0 <= 4) by lia.
  assert (Hb : 4 + 32 <= byteLength index_frame) by (vm_compute; discriminate).
  split; [auto|].
  exact (proj1 (readFullIndex_by_mode (setMode Quote [265] Fixture.fresh)
                  index_frame 4 H0 Hb)).
Defined.

Example index_frame_full :
  fst (parseTickData Fixture.fresh index_frame 4 32)
  = Some (index_full index_frame 4)
  ∧ Tradable (index_full index_frame 4) = Some false
  ∧ Timestamp (index_full index_frame 4) = Some (Some 315619200000).
Proof. vm_compute. auto. Qed.

(** ** The full feed *)

(** C10.  Under requested mode [Full], be it set or the default of an
    identifier that has no entry, every tick of a 184- or 200-byte
    record has [Change] equal to 0, and a 200-byte record inside the
    buffer does yield a tick; whereas the tick of a 32-byte record under
    the same mode has [Change = LastPrice - Close]. *)
Theorem readFullFeed_change_zero :
  ∀ (this : MTicker) (view : DataView.t) (offset length : Z),
    0 <= offset →
    length = 184 ∨ length = 200 →
    tokenModes this !! raw32 view offset = None
    ∨ tokenModes this !! raw32 view offset = Some Full →
    (∀ tick,
       fst (parseTickData this view offset length) = Some tick →
       Change tick = Some 0%Q)
    ∧ (offset + 200 <= byteLength view →
       is_Some (fst (parseTickData this view offset length)))
    ∧ (offset + 32 <= byteLength view →
       ∃ tick p c,
         fst (parseTickData this view offset 32) = Some tick
         ∧ LastPrice tick = Some p ∧ Close tick = Some c
         ∧ Change tick = Some (p - c)%Q).
Proof.
  intros this view offset length H0 Hl Hmode.
  assert (Hm : getTokenMode this (raw32 view offset) = Full).
  { unfold getTokenMode. destruct Hmode as [-> | ->]; reflexivity. }
  split; [|split].
  - intros tick Htick. unfold parseTickData in Htick.
    assert (Hd : dispatch this view offset length
                 = Some (readModeBasedData this view offset length)).
    { destruct Hl as [->| ->]; reflexivity. }
    rewrite Hd in Htick.
    destruct (readModeBasedData this view offset length) as [tick'|] eqn:E;
      [|discriminate Htick].
    injection Htick as ->.
    unfold readModeBasedData in E.
    apply bind_Some in E. destruct E as (token & Etoken & E).
    apply getUint32_Some in Etoken. destruct Etoken as (-> & _ & _).
    rewrite Hm in E.
    replace (length =? 44) with false in E
      by (destruct Hl as [->| ->]; reflexivity).
    unfold readFullFeed in E. unread E.
    injection E as <-. reflexivity.
  - intros Hb. apply parseTickData_tick; [exact H0|].
    exists 200. rewrite Hm. split; [|exact Hb].
    destruct Hl as [->| ->]; reflexivity.
  - intros Hb.
    rewrite (parseTickData_32 this view offset H0 Hb), Hm.
    eexists _, _, _. repeat split; reflexivity.
Qed.

(** [readFullFeed] reads the four circuit words at offsets 184 to 199
    whatever the length of the record: a 184-byte record that ends the
    frame gives no tick under mode [Full]. *)
Example full_184_last_record :
  parseBinaryMessage Fixture.fresh full_184_frame
  = ([Console error "Error parsing tick data:"], Normal).
Proof. vm_compute. reflexivity. Qed.

(** A 200-byte record for identifier 5633. *)
Definition full_200_frame : DataView.t :=
  Fixture.frame 1 [Fixture.record 200 (5633 :: Fixture.words 100 49)].

Lemma readFullFeed_change_zero_witness :
  (0 <= 4 ∧ tokenModes Fixture.fresh !! raw32 full_200_frame 4 = None
   ∧ 4 + 200 <= byteLength full_200_frame)
  ∧ ∃ tick,
      fst (parseTickData Fixture.fresh full_200_frame 4 200) = Some tick
      ∧ Change tick = Some 0%Q.
Proof.
  assert (H0 : 0 <= 4) by lia.
  assert (Hn : tokenModes Fixture.fresh !! raw32 full_200_frame 4 = None)
    by reflexivity.
  assert (Hb : 4 + 200 <= byteLength full_200_frame)
    by (vm_compute; discriminate).
  split; [auto|].
  destruct (readFullFeed_change_zero Fixture.fresh full_200_frame 4 200 H0
              (or_intror eq_refl) (or_introl Hn)) as (Hzero & Hsome & _).
  destruct (Hsome Hb) as [tick Htick].
  exists tick. split; [exact Htick|]. apply Hzero, Htick.
Defined.

(** ** The tick of every supported record *)

Section DecodedTick.

Context (view : DataView.t) (offset : Z).

Let t := raw32 view offset.
Let d := Utils.getDecimalDivisor (raw32 view offset).

(** The scaled word and the plain word at byte [k] of the record. *)
Let price (k : Z) : number := scaled (raw32 view (offset + k)) d.
Let quantity (k : Z) : number := num (raw32 view (offset + k)).

(** The tick of an 8-byte record: four properties. *)
Definition ltp_broadcast : FeedData :=
  {| InstrumentToken := Some t;
     Mode := Some Ltp;
     LastPrice := Some (price 4);
     Tradable := Some (tradable t);
     LastQuantity := None; AveragePrice := None; Volume := None;
     BuyQuantity := None; SellQuantity := None; Open := None;
     High := None; Low := None; Close := None; Change := None;
     Bids := None; Offers := None; LastTradeTime := None; OI := None;
     OIDayHigh := None; OIDayLow := None; Timestamp := None;
     UpperCircuit := None; LowerCircuit := None; YearHigh := None;
     YearLow := None |}.

(** The tick of a 28-byte record; [Change] is the word at byte 24. *)
Definition quote_index : FeedData :=
  {| Mode := Some Quote;
     InstrumentToken := Some t;
     Tradable := Some (tradable t);
     LastPrice := Some (price 4);
     High := Some (price 8);
     Low := Some (price 12);
     Open := Some (price 16);
     Close := Some (price 20);
     Change := Some (price 24);
     LastQuantity := None; AveragePrice := None; Volume := None;
     BuyQuantity := None; SellQuantity := None;
     Bids := None; Offers := None; LastTradeTime := None; OI := None;
     OIDayHigh := None; OIDayLow := None; Timestamp := None;
     UpperCircuit := None; LowerCircuit := None; YearHigh := None;
     YearLow := None |}.

(** The tick of the first 44 bytes of a record: prices scaled,
    quantities as they are, no [Change]. *)
Definition quote_44 : FeedData :=
  {| Mode := Some Quote;
     InstrumentToken := Some t;
     Tradable := Some (tradable t);
     LastPrice := Some (price 4);
     LastQuantity := Some (quantity 8);
     AveragePrice := Some (price 12);
     Volume := Some (quantity 16);
     BuyQuantity := Some (quantity 20);
     SellQuantity := Some (quantity 24);
     Open := Some (price 28);
     High := Some (price 32);
     Low := Some (price 36);
     Close := Some (price 40);
     Change := None;
     Bids := None; Offers := None; LastTradeTime := None; OI := None;
     OIDayHigh := None; OIDayLow := None; Timestamp := None;
     UpperCircuit := None; LowerCircuit := None; YearHigh := None;
     YearLow := None |}.

(** The tick of the full feed: the 44-byte fields, [Change] 0, the two
    dates, open interest, five bids from byte 64, five offers from byte
    124, and the four limits from byte 184. *)
Definition full_feed : FeedData :=
  {| Mode := Some Full;
     InstrumentToken := Some t;
     Tradable := Some (tradable t);
     LastPrice := Some (price 4);
     LastQuantity := Some (quantity 8);
     AveragePrice := Some (price 12);
     Volume := Some (quantity 16);
     BuyQuantity := Some (quantity 20);
     SellQuantity := Some (quantity 24);
     Open := Some (price 28);
     High := Some (price 32);
     Low := Some (price 36);
     Close := Some (price 40);
     Change := Some 0%Q;
     LastTradeTime :=
       Some (Some (Utils.unixToDateTime (raw32 view (offset + 44))));
     OI := Some (quantity 48);
     OIDayHigh := Some (quantity 52);
     OIDayLow := Some (quantity 56);
     Timestamp :=
       Some (Some (Utils.unixToDateTime (raw32 view (offset + 60))));
     Bids :=
       Some (map (λ i, depthAt view d (offset + 64 + 12 * Z.of_nat i))
               (seq 0 5));
     Offers :=
       Some (map (λ i, depthAt view d (offset + 124 + 12 * Z.of_nat i))
               (seq 0 5));
     UpperCircuit := Some (price 184);
     LowerCircuit := Some (price 188);
     YearHigh := Some (price 192);
     YearLow := Some (price 196) |}.

(** The tick of a record of [length] bytes whose identifier has the
    requested mode [m]. *)
Definition decoded (length : Z) (m : mode) : FeedData :=
  match length with
  | 8 => ltp_broadcast
  | 28 => quote_index
  | 32 =>
      match m with
      | Quote => index_quote view offset
      | Ltp => index_ltp view offset
      | Full => index_full view offset
      end
  | 44 =>
      match m with
      | Ltp => ltp_only t (raw32 view (offset + 4))
      | _ => quote_44
      end
  | _ =>
      match m with
      | Ltp => ltp_only t (raw32 view (offset + 4))
      | Quote => quote_44
      | Full => full_feed
      end
  end.

Context (this : MTicker).
Hypothesis offset_nonneg : 0 <= offset.

Lemma parseTickData_8 :
  offset + 8 <= byteLength view →
  parseTickData this view offset 8 = (Some ltp_broadcast, []).
Proof.
intros Hb. unfold parseTickData.
change (dispatch this view offset 8)
  with (Some (readLTPBroadcast view offset)).
unfold readLTPBroadcast. reads. reflexivity.
Qed.

Lemma parseTickData_28 :
  offset + 28 <= byteLength view →
  parseTickData this view offset 28 = (Some quote_index, []).
Proof.
intros Hb. unfold parseTickData.
change (dispatch this view offset 28)
  with (Some (readQuoteIndex view offset)).
unfold readQuoteIndex. reads. reflexivity.
Qed.

Lemma readQuote_in :
  offset + 44 <= byteLength view → readQuote view offset = Some quote_44.
Proof. intros Hb. unfold readQuote. reads. reflexivity. Qed.

Lemma createQuoteFromPacket_in (length : Z) :
  44 <= length →
  offset + 44 <= byteLength view →
  createQuoteFromPacket view offset length = Some quote_44.
Proof.
intros Hl Hb. unfold createQuoteFromPacket.
repeat match goal with
  | |- context [?k <=? length] =>
      replace (k <=? length) with true by (symmetry; apply Z.leb_le; lia)
  end.
reads. reflexivity.
Qed.

Lemma createLTPFromPacket_in :
  offset + 8 <= byteLength view →
  createLTPFromPacket view offset t
  = Some (ltp_only t (raw32 view (offset + 4))).
Proof. intros Hb. unfold createLTPFromPacket. reads. reflexivity. Qed.

Lemma readFullFeed_in (length : Z) :
  offset + 200 <= byteLength view →
  readFullFeed view offset length = Some full_feed.
Proof.
intros Hb. unfold readFullFeed. reads. simpl.
rewrite !readDepth_in by lia. simpl.
replace (offset + 64 + 60) with (offset + 124) by lia.
replace (offset + 124 + 60) with (offset + 184) by lia.
replace (offset + 184 + 4) with (offset + 188) by lia.
replace (offset + 184 + 8) with (offset + 192) by lia.
replace (offset + 184 + 12) with (offset + 196) by lia.
reflexivity.
Qed.

Lemma parseTickData_mode_based (length : Z) :
  length = 44 ∨ length = 184 ∨ length = 200 →
  offset + length <= byteLength view →
  ¬ (length = 184 ∧ getTokenMode this t = Full) →
  parseTickData this view offset length
  = (Some (decoded length (getTokenMode this t)), []).
Proof.
intros Hl Hb Hn. unfold parseTickData.
assert (Hd : dispatch this view offset length
             = Some (readModeBasedData this view offset length)).
{ destruct Hl as [->|[->| ->]]; reflexivity. }
rewrite Hd. unfold readModeBasedData.
rewrite (getUint32_in view offset) by lia. simpl. fold t.
destruct (getTokenMode this t) eqn:Hm.
- rewrite createLTPFromPacket_in by lia.
  destruct Hl as [->|[->| ->]]; reflexivity.
- rewrite createQuoteFromPacket_in by lia.
  destruct Hl as [->|[->| ->]]; reflexivity.
- destruct Hl as [->|[->| ->]].
  + change (44 =? 44) with true. cbv iota. rewrite readQuote_in by lia.
    reflexivity.
  + exfalso. apply Hn. auto.
  + change (200 =? 44) with false. cbv iota. rewrite readFullFeed_in by lia.
    reflexivity.
Qed.

End DecodedTick.

(** C1, amended.  A record of a supported length that lies inside the
    buffer yields exactly one tick, the one of [decoded], and nothing
    on the console; the case of a 184-byte record decoded under mode
    [Full] is left aside.  With [t] the first word of the record, [m]
    the requested mode of [t] (the mode of the latest [setMode] that
    named it, [Full] when there was none), a price the word at the
    stated byte divided by the divisor of [t], and a quantity the word
    as it is, the tick holds [t], the flag and:
    - 8 bytes: mode [Ltp] and the last price (byte 4), whatever [m];
    - 28 bytes: mode [Quote], the prices last, high, low, open, close
      and change (bytes 4 to 24), whatever [m];
    - 32 bytes: mode [m]; under [Ltp] the last price; under [Quote] the
      prices last, high, low, open, close (bytes 4 to 20) and
      [Change = LastPrice - Close]; under [Full] the same and the
      timestamp (byte 28);
    - 44, 184 or 200 bytes under [Ltp]: mode [Ltp], the last price,
      every other numeric field 0 and both dates null;
    - 44 bytes otherwise, and 184 or 200 bytes under [Quote]: mode
      [Quote], the prices last (4), average (12), open, high, low,
      close (28 to 40) and the quantities last (8), volume (16), buy
      (20), sell (24), no change;
    - 200 bytes under [Full]: mode [Full], those eleven fields, change
      0, the two dates (44, 60), the open-interest quantities (48 to
      56), five bids (from 64) and five offers (from 124) of twelve
      bytes each with the price scaled, and the prices of the four
      limits (184 to 196). *)
Theorem parseTickData_supported_record :
  ∀ (this : MTicker) (view : DataView.t) (offset length : Z),
    0 <= offset →
    supported length →
    offset + length <= byteLength view →
    ¬ (length = 184 ∧ getTokenMode this (raw32 view offset) = Full) →
    parseTickData this view offset length
    = (Some (decoded view offset length
               (getTokenMode this (raw32 view offset))), [])
    ∧ decoded_from this view offset length
        (decoded view offset length (getTokenMode this (raw32 view offset)))
    ∧ (tokenModes this !! raw32 view offset = None →
       getTokenMode this (raw32 view offset) = Full)
    ∧ (∀ m tokens,
         raw32 view offset ∈ tokens →
         getTokenMode (setMode m tokens this) (raw32 view offset) = m).
Proof.
intros this view offset length H0 Hs Hb Hn.
assert (Heq : parseTickData this view offset length
              = (Some (decoded view offset length
                         (getTokenMode this (raw32 view offset))), [])).
{ destruct Hs as [->|[->|[->|Hm]]].
  - apply parseTickData_8; lia.
  - apply parseTickData_28; lia.
  - rewrite parseTickData_32 by lia.
    destruct (getTokenMode this (raw32 view offset)); reflexivity.
  - apply parseTickData_mode_based; assumption. }
split; [exact Heq|]. split; [|split].
- assert (Hex : ∃ tick,
            parseTickData this view offset length = (Some tick, [])
            ∧ decoded_from this view offset length tick).
  { destruct Hs as [->|[->|[->|[->|[->| ->]]]]].
    + apply decoded_8; lia.
    + apply decoded_28; lia.
    + apply decoded_32; lia.
    + apply decoded_44; lia.
    + apply decoded_trimmed; [lia|auto|lia|]. intros Hm. apply Hn. auto.
    + apply decoded_200; lia. }
  destruct Hex as (tick & Htick & Hfrom).
  rewrite Heq in Htick. injection Htick as <-. exact Hfrom.
- intros Hnone. unfold getTokenMode. rewrite Hnone. reflexivity.
- intros m tokens Hin. rewrite getTokenMode_setMode.
  rewrite decide_True by exact Hin. reflexivity.
Qed.

Lemma parseTickData_supported_record_witness :
  (0 <= 4 ∧ supported 8 ∧ 4 + 8 <= byteLength ltp_frame)
  ∧ parseTickData Fixture.fresh ltp_frame 4 8
    = (Some (ltp_broadcast ltp_frame 4), []).
Proof.
assert (H0 : 0 <= 4) by lia.
assert (Hs : supported 8) by (left; reflexivity).
assert (Hb : 4 + 8 <= byteLength ltp_frame) by (vm_compute; discriminate).
split; [auto|].
refine (proj1 (parseTickData_supported_record Fixture.fresh ltp_frame 4 8
                 H0 Hs Hb _)).
intros [Hl _]. discriminate Hl.
Defined.

Example cut_200_quote :
  parseTickData (setMode Quote [5633] Fixture.fresh) full_200_frame 4 200
  = (Some (quote_44 full_200_frame 4), [])
  ∧ Volume (quote_44 full_200_frame 4) = Some (num 103)
  ∧ Close (quote_44 full_200_frame 4) = Some (scaled 109 100).
Proof. repeat split; vm_compute; reflexivity. Qed.

(** ** The subscription registry *)

Section RegistryCalls.

Context (this : MTicker).

Lemma sendSubscriptionMessage_state action tokens :
  subscribedTokens (sendSubscriptionMessage action tokens this)
    = subscribedTokens this
  ∧ tokenModes (sendSubscriptionMessage action tokens this) = tokenModes this.
Proof.
  unfold sendSubscriptionMessage.
  destruct (ws this); [destruct (bool_decide _)|]; auto.
Qed.

Lemma ws_open_false_cases :
  ws_open this = false →
  ws this = None ∨ ∃ s, ws this = Some s ∧ sockets this !! s ≠ Some OPEN.
Proof.
  unfold ws_open. destruct (ws this) as [s|]; [|auto].
  intros H. right. exists s. split; [reflexivity|].
  apply bool_decide_eq_false in H. exact H.
Qed.

Lemma ws_open_true_cases :
  ws_open this = true →
  ∃ s, ws this = Some s ∧ sockets this !! s = Some OPEN.
Proof.
  unfold ws_open. destruct (ws this) as [s|]; [|discriminate].
  intros H. exists s. split; [reflexivity|].
  apply bool_decide_eq_true in H. exact H.
Qed.

End RegistryCalls.

(** The claim of the specification about [subscribeWithMode]: the
    identifiers join the subscribed set whatever the socket, and a
    warning is logged when the socket is not open. *)
Definition registers_regardless (this : MTicker) (m : mode) (tokens : list Z)
  : Prop :=
  (∀ t, t ∈ tokens → t ∈ subscribedTokens (subscribeWithMode m tokens this))
  ∧ (isConnected this = false →
     ∃ text, out (subscribeWithMode m tokens this)
             = out this ++ [Console warn text]).

(** C5, as the specification states it, fails: on a client that never
    connected, [subscribeWithMode] neither adds 5633 to the subscribed
    set nor logs anything. *)
Lemma subscribeWithMode_without_socket :
  isConnected Fixture.fresh = false
  ∧ subscribedTokens (subscribeWithMode Ltp [5633] Fixture.fresh) = ∅
  ∧ out (subscribeWithMode Ltp [5633] Fixture.fresh) = []
  ∧ ¬ registers_regardless Fixture.fresh Ltp [5633].
Proof.
  split; [reflexivity|]. split; [reflexivity|]. split; [reflexivity|].
  intros [Hin _]. specialize (Hin 5633 ltac:(set_solver)).
  change (subscribedTokens (subscribeWithMode Ltp [5633] Fixture.fresh))
    with (∅ : gset Z) in Hin.
  set_solver.
Qed.

(** C5, amended.  For a non-empty identifier list: [subscribe] adds the
    identifiers to the subscribed set whether the socket is open or not,
    and with no open socket it sends nothing and logs one warning;
    [setMode] records the mode of each identifier and leaves the other
    entries alone, whether the socket is open or not, and with no open
    socket it sends nothing and logs nothing; [subscribeWithMode] sends
    its message and adds the identifiers when the socket is open, and
    with no open socket it leaves the client exactly as it was. *)
Theorem registry_calls_local_state :
  ∀ (this : MTicker) (m : mode) (tokens : list Z),
    tokens ≠ [] →
    subscribedTokens (subscribe tokens this)
      = subscribedTokens this ∪ list_to_set tokens
    ∧ (isConnected this = false →
       out (subscribe tokens this)
       = out this
         ++ [Console warn "Cannot subscribe: WebSocket is not connected"])
    ∧ (∀ t, tokenModes (setMode m tokens this) !! t
            = if decide (t ∈ tokens) then Some m else tokenModes this !! t)
    ∧ (isConnected this = false → out (setMode m tokens this) = out this)
    ∧ (isConnected this = true →
       ∃ s, ws this = Some s
            ∧ subscribedTokens (subscribeWithMode m tokens this)
              = subscribedTokens this ∪ list_to_set tokens
            ∧ out (subscribeWithMode m tokens this)
              = out this ++ [Send s (SubscribeWithMode m tokens)])
    ∧ (isConnected this = false → subscribeWithMode m tokens this = this).
Proof.
  intros this m tokens Hne.
  split; [|split; [|split; [|split; [|split]]]].
  - unfold subscribe. rewrite bool_decide_eq_false_2 by exact Hne.
    rewrite (proj1 (sendSubscriptionMessage_state _ _ _)). simpl.
    apply add_all_union.
  - intros Hc. unfold subscribe. rewrite bool_decide_eq_false_2 by exact Hne.
    unfold sendSubscriptionMessage. simpl.
    destruct (ws_open_false_cases this Hc) as [-> | (s & -> & Hs)];
      [reflexivity|].
    rewrite bool_decide_eq_false_2 by exact Hs. reflexivity.
  - intros t. rewrite tokenModes_setMode. apply set_all_lookup.
  - intros Hc. unfold setMode. simpl.
    destruct (ws_open_false_cases this Hc) as [-> | (s & -> & Hs)];
      [reflexivity|].
    rewrite bool_decide_eq_false_2 by exact Hs. reflexivity.
  - intros Hc. destruct (ws_open_true_cases this Hc) as (s & Hws & Hs).
    exists s. unfold subscribeWithMode. rewrite Hws.
    rewrite bool_decide_eq_true_2 by exact Hs. simpl.
    split; [reflexivity|]. split; [apply add_all_union|reflexivity].
  - intros Hc. unfold subscribeWithMode.
    destruct (ws_open_false_cases this Hc) as [-> | (s & -> & Hs)];
      [reflexivity|].
    rewrite bool_decide_eq_false_2 by exact Hs. reflexivity.
Qed.

Lemma registry_calls_local_state_witness :
  ([5633; 2885] ≠ [] ∧ isConnected Fixture.fresh = false)
  ∧ subscribedTokens (subscribe [5633; 2885] Fixture.fresh)
    = subscribedTokens Fixture.fresh ∪ list_to_set [5633; 2885]
  ∧ out (subscribe [5633; 2885] Fixture.fresh)
    = out Fixture.fresh
      ++ [Console warn "Cannot subscribe: WebSocket is not connected"]
  ∧ subscribeWithMode Quote [5633; 2885] Fixture.fresh = Fixture.fresh.
Proof.
  assert (Hne : [5633; 2885] ≠ ([] : list Z)) by discriminate.
  assert (Hc : isConnected Fixture.fresh = false) by reflexivity.
  split; [auto|].
  destruct (registry_calls_local_state Fixture.fresh Quote [5633; 2885] Hne)
    as (Hsub & Hwarn & _ & _ & _ & Hwith).
  split; [exact Hsub|]. split; [exact (Hwarn Hc)|exact (Hwith Hc)].
Defined.

(** C6.  [unsubscribe] removes its identifiers from the subscribed set
    and leaves the mode table as it was; so [subscribe [5633]] followed
    by [unsubscribe [5633]] leaves a set without 5633 and the same mode
    table, and on a client whose only action before was
    [setMode Quote [5633]] the set ends empty while 5633 keeps its mode. *)
Theorem unsubscribe_keeps_modes :
  ∀ (this : MTicker) (tokens : list Z),
    subscribedTokens (unsubscribe tokens this)
      = subscribedTokens this ∖ list_to_set tokens
    ∧ tokenModes (unsubscribe tokens this) = tokenModes this
    ∧ subscribedTokens (unsubscribe [5633] (subscribe [5633] this))
      = subscribedTokens this ∖ {[5633]}
    ∧ tokenModes (unsubscribe [5633] (subscribe [5633] this)) = tokenModes this
    ∧ subscribedTokens
        (unsubscribe [5633]
           (subscribe [5633] (setMode Quote [5633] Fixture.fresh))) = ∅
    ∧ tokenModes
        (unsubscribe [5633]
           (subscribe [5633] (setMode Quote [5633] Fixture.fresh))) !! 5633
      = Some Quote.
Proof.
  assert (Hun : ∀ this tokens,
             subscribedTokens (unsubscribe tokens this)
               = subscribedTokens this ∖ list_to_set tokens
             ∧ tokenModes (unsubscribe tokens this) = tokenModes this).
  { intros this tokens. unfold unsubscribe.
    destruct (bool_decide_reflect (tokens = [])) as [->|Hne].
    - simpl. split; [set_solver|reflexivity].
    - destruct (sendSubscriptionMessage_state
                  (with_subscribedTokens
                     (delete_all tokens (subscribedTokens this)) this)
                  "unsubscribe" tokens) as [-> ->].
      simpl. split; [apply delete_all_difference|reflexivity]. }
  assert (Hsub : ∀ this tokens,
             tokens ≠ [] →
             subscribedTokens (subscribe tokens this)
               = subscribedTokens this ∪ list_to_set tokens
             ∧ tokenModes (subscribe tokens this) = tokenModes this).
  { intros this tokens Hne. unfold subscribe.
    rewrite bool_decide_eq_false_2 by exact Hne.
    destruct (sendSubscriptionMessage_state
                (with_subscribedTokens
                   (add_all tokens (subscribedTokens this)) this)
                "subscribe" tokens) as [-> ->].
    simpl. split; [apply add_all_union|reflexivity]. }
  assert (Hseq : ∀ this,
             subscribedTokens (unsubscribe [5633] (subscribe [5633] this))
               = subscribedTokens this ∖ {[5633]}
             ∧ tokenModes (unsubscribe [5633] (subscribe [5633] this))
               = tokenModes this).
  { intros this.
    destruct (Hun (subscribe [5633] this) [5633]) as [-> ->].
    destruct (Hsub this [5633] ltac:(discriminate)) as [-> ->].
    split; [set_solver|reflexivity]. }
  intros this tokens.
  destruct (Hun this tokens) as [H1 H2].
  destruct (Hseq this) as [H3 H4].
  destruct (Hseq (setMode Quote [5633] Fixture.fresh)) as [H5 H6].
  split; [exact H1|]. split; [exact H2|].
  split; [exact H3|]. split; [exact H4|].
  split; [rewrite H5; set_solver|rewrite H6; reflexivity].
Qed.

(** ** Frames with unknown or overrunning records *)

(** The call of [onBroadcastReceived] made for the result of
    [parseTickData]. *)
Definition called (tick : option FeedData) : list effect :=
  match tick with
  | Some t => [OnBroadcastReceived t]
  | None => []
  end.

Section Frames.

Context (this : MTicker) (view : DataView.t).


(** At or past the end of the buffer the loop stops. *)
Lemma parseRecords_end (count : nat) (offset : Z) :
  byteLength view <= offset →
  parseRecords this view count offset = ([], Normal).
Proof.
  intros Hge. destruct count as [|count]; [reflexivity|].
  cbn [parseRecords].
  replace (byteLength view <=? offset) with true
    by (symmetry; apply Z.leb_le; lia).
  reflexivity.
Qed.



End Frames.

(** A frame too short for its record count makes [parseBinaryMessage]
    throw; [handleBinaryMessage] catches and logs. *)
Example one_byte_frame :
  parseBinaryMessage Fixture.fresh [Byte.x01] = ([], Thrown)
  ∧ handleBinaryMessage Fixture.fresh [Byte.x01]
    = (emit [Console error "Failed to parse binary message:"] Fixture.fresh,
       Normal).
Proof. split; reflexivity. Qed.





(** Two records: one of the unknown length 9, then an eight-byte one. *)
Definition unknown_then_ltp : DataView.t :=
  Fixture.frame 2
    [Fixture.u16 9 ++ Fixture.u32 1 ++ Fixture.u32 2 ++ [Fixture.byte_of 3];
     Fixture.record 8 [408065; 250050]].


Example unknown_then_ltp_ticks :
  parseBinaryMessage Fixture.fresh unknown_then_ltp =
    ([Console warn "Unknown packet length: 9";
      OnBroadcastReceived
        {| Mode := Some Ltp; InstrumentToken := Some 408065;
           Tradable := Some true;
           LastPrice := Some (scaled 250050 100);
           LastQuantity := None; AveragePrice := None; Volume := None;
           BuyQuantity := None; SellQuantity := None; Open := None;
           High := None; Low := None; Close := None; Change := None;
           Bids := None; Offers := None; LastTradeTime := None; OI := None;
           OIDayHigh := None; OIDayLow := None; Timestamp := None;
           UpperCircuit := None; LowerCircuit := None; YearHigh := None;
           YearLow := None |}], Normal).
Proof. reflexivity. Qed.

(** ** The connection manager *)

(** The events that are not calls of the application. *)
Definition automatic (e : event) : bool :=
  match e with
  | SocketOpen _ | SocketError _ | SocketClose _ | SocketBinary _ _
  | Timeout _ => true
  | _ => false
  end.


(** The effects of a reconnection attempt: the reconnecting callback,
    the timer and the new socket. *)
Definition is_reconnect (e : effect) : bool :=
  match e with
  | OnReconnecting _ _ | SetTimeout _ | NewSocket _ => true
  | _ => false
  end.

Definition reconnects (this : MTicker) : list effect :=
  List.filter is_reconnect (out this).

Section Quiet.

Lemma reconnects_emit (es : list effect) (this : MTicker) :
  Forall (λ e, is_reconnect e = false) es →
  reconnects (emit es this) = reconnects this.
Proof.
  intros H. unfold reconnects. simpl. rewrite List.filter_app.
  assert (Hnil : List.filter is_reconnect es = []).
  { induction H as [|e es He _ IH]; [reflexivity|].
    simpl. rewrite He. exact IH. }
  rewrite Hnil. apply app_nil_r.
Qed.

Lemma parseTickData_quiet this view offset length :
  Forall (λ e, is_reconnect e = false)
    (snd (parseTickData this view offset length)).
Proof.
  unfold parseTickData.
  destruct (dispatch this view offset length) as [[tick|]|]; simpl;
    repeat constructor.
Qed.

Lemma parseRecords_quiet this view count offset :
  Forall (λ e, is_reconnect e = false)
    (fst (parseRecords this view count offset)).
Proof.
  revert offset. induction count as [|count IH]; intros offset.
  - constructor.
  - cbn [parseRecords].
    destruct (byteLength view <=? offset); [constructor|].
    destruct (getUint16 view offset) as [length|]; [|constructor].
    pose proof (parseTickData_quiet this view (offset + 2) length) as Hq.
    destruct (parseTickData this view (offset + 2) length) as [tick logged].
    specialize (IH (offset + 2 + length)).
    destruct (parseRecords this view count (offset + 2 + length)) as [rest c].
    simpl in *. apply Forall_app. split; [exact Hq|].
    apply Forall_app. split; [|exact IH].
    destruct tick; repeat constructor.
Qed.

Lemma handleBinaryMessage_emit this data :
  ∃ es, fst (handleBinaryMessage this data) = emit es this
        ∧ Forall (λ e, is_reconnect e = false) es.
Proof.
  unfold handleBinaryMessage, parseBinaryMessage.
  destruct (getUint16 data 0) as [count|].
  - pose proof (parseRecords_quiet this data (Z.to_nat count) 2) as Hq.
    destruct (parseRecords this data (Z.to_nat count) 2) as [es []];
      simpl in *; eexists; split; try reflexivity; try exact Hq.
    apply Forall_app. split; [exact Hq|repeat constructor].
  - eexists. split; [reflexivity|]. repeat constructor.
Qed.



End Quiet.


Section Exhausted.






End Exhausted.


(** A client with the default of five attempts whose sockets closed five
    times in a row. *)
Definition five_closes : MTicker :=
  run [CallConnect true; SocketClose 0;
       Timeout true; SocketClose 1;
       Timeout true; SocketClose 2;
       Timeout true; SocketClose 3;
       Timeout true; SocketClose 4] Fixture.fresh.


Section Exhaustion.



End Exhaustion.


(** The client of [five_closes] after its sixth socket failed too. *)
Definition six_closes : MTicker :=
  run [Timeout true; SocketClose 5] five_closes.


Example six_closes_log :
  isConnected six_closes = false
  ∧ last (out six_closes)
    = Some (Console error "Max reconnection attempts reached").
Proof. split; vm_compute; reflexivity. Qed.

(** ** Manual disconnect *)

Section Registry_kept.

Lemma scheduleReconnection_registry this :
  subscribedTokens (scheduleReconnection this) = subscribedTokens this
  ∧ tokenModes (scheduleReconnection this) = tokenModes this.
Proof. unfold scheduleReconnection. repeat case_match; auto. Qed.

Lemma createWebSocketConnection_registry constructed this :
  subscribedTokens (createWebSocketConnection constructed this)
    = subscribedTokens this
  ∧ tokenModes (createWebSocketConnection constructed this) = tokenModes this.
Proof.
  unfold createWebSocketConnection. destruct constructed; [auto|].
  exact (scheduleReconnection_registry _).
Qed.

Lemma step_automatic_registry this e :
  automatic e = true →
  subscribedTokens (step this e) = subscribedTokens this
  ∧ tokenModes (step this e) = tokenModes this.
Proof.
  intros He. destruct e; try discriminate He; simpl.
  - auto.
  - unfold handleError. exact (scheduleReconnection_registry _).
  - unfold handleClose. case_match; [|auto].
    exact (scheduleReconnection_registry _).
  - destruct (handleBinaryMessage_emit this data) as (es & -> & _). auto.
  - unfold timeout. destruct (timers this); [auto|].
    case_match; [|auto]. exact (createWebSocketConnection_registry _ _).
Qed.

Lemma run_automatic_registry es :
  ∀ this,
    Forall (λ e, automatic e = true) es →
    subscribedTokens (run es this) = subscribedTokens this
    ∧ tokenModes (run es this) = tokenModes this.
Proof.
  induction es as [|e es IH]; intros this Hes; [auto|].
  apply Forall_cons in Hes. destruct Hes as [He Hes].
  change (run (e :: es) this) with (run es (step this e)).
  destruct (IH (step this e) Hes) as [-> ->].
  apply step_automatic_registry, He.
Qed.

End Registry_kept.

(** C9.  From any state [disconnect] sets the manual-close flag, closes
    the socket [this.ws] refers to and forgets it, empties the
    subscribed set, puts the attempt counter back to 0 and leaves the
    mode table as it was.  No sequence of socket events, frames and
    reconnection timers changes the subscribed set or the mode table. *)
Theorem disconnect_clears_subscriptions :
  ∀ (this : MTicker) (es : list event),
    isManualClose (disconnect this) = true
    ∧ ws (disconnect this) = None
    ∧ isConnected (disconnect this) = false
    ∧ sockets (disconnect this)
      = match ws this with
        | Some s => alter closing s (sockets this)
        | None => sockets this
        end
    ∧ out (disconnect this)
      = match ws this with
        | Some s => out this ++ [CloseSocket s]
        | None => out this
        end
    ∧ subscribedTokens (disconnect this) = ∅
    ∧ reconnectionAttempts (disconnect this) = 0
    ∧ tokenModes (disconnect this) = tokenModes this
    ∧ (Forall (λ e, automatic e = true) es →
       subscribedTokens (run es this) = subscribedTokens this
       ∧ tokenModes (run es this) = tokenModes this).
Proof.
  intros this es. unfold disconnect, isConnected, ws_open. simpl.
  destruct (ws this) as [s|] eqn:Hws; simpl; rewrite ?Hws;
    repeat (split; [reflexivity|]); apply run_automatic_registry.
Qed.

(** A connected client with two subscriptions and a mode. *)
Definition streaming : MTicker :=
  run [CallConnect true; SocketOpen 0; CallSubscribe [5633; 2885];
       CallSetMode Quote [5633]] Fixture.fresh.

Lemma disconnect_clears_subscriptions_witness :
  Forall (λ e, automatic e = true)
    [SocketError 0; SocketClose 0; Timeout true; SocketOpen 1]
  ∧ subscribedTokens
      (run [SocketError 0; SocketClose 0; Timeout true; SocketOpen 1] streaming)
    = subscribedTokens streaming
  ∧ subscribedTokens (disconnect streaming) = ∅
  ∧ tokenModes (disconnect streaming) = tokenModes streaming.
Proof.
  assert (Hes : Forall (λ e, automatic e = true)
                  [SocketError 0; SocketClose 0; Timeout true; SocketOpen 1])
    by (repeat constructor).
  split; [exact Hes|].
  destruct (disconnect_clears_subscriptions streaming
              [SocketError 0; SocketClose 0; Timeout true; SocketOpen 1])
    as (_ & _ & _ & _ & _ & Hset & _ & Hmodes & Hkeep).
  split; [exact (proj1 (Hkeep Hes))|]. split; [exact Hset|exact Hmodes].
Defined.

Example streaming_state :
  isConnected streaming = true
  ∧ subscribedTokens streaming = {[5633; 2885]}
  ∧ tokenModes streaming !! 5633 = Some Quote
  ∧ isConnected (disconnect streaming) = false
  ∧ sockets (disconnect streaming) = [CLOSING].
Proof. repeat split; reflexivity. Qed.

(** * Further properties of the decoder *)

(** ** Wire integers *)

Section WireIntegers.

Lemma octet_range (b : byte) : 0 <= octet b < 256.
Proof.
unfold octet. pose proof (Byte.to_N_bounded b) as H. lia.
Qed.

Lemma foldl_be_range (bs : list byte) (acc : Z) :
  0 <= acc →
  0 <= foldl (λ a b, a * 256 + octet b) acc bs
  < (acc + 1) * 256 ^ Z.of_nat (length bs).
Proof.
revert acc. induction bs as [|b bs IH]; intros acc Hacc.
- simpl. lia.
- cbn [foldl length]. pose proof (octet_range b) as Hb.
  specialize (IH (acc * 256 + octet b) ltac:(lia)).
  rewrite Nat2Z.inj_succ, Z.pow_succ_r by lia.
  assert (Hp : 0 < 256 ^ Z.of_nat (length bs)) by (apply Z.pow_pos_nonneg; lia).
  nia.
Qed.

Lemma be_range (bs : list byte) : 0 <= be bs < 256 ^ Z.of_nat (length bs).
Proof.
unfold be. pose proof (foldl_be_range bs 0 ltac:(lia)) as H. lia.
Qed.

Lemma slice_length (view : DataView.t) (off : Z) (n : nat) :
  (length (slice view off n) <= n)%nat.
Proof. unfold slice. rewrite length_take. lia. Qed.

Lemma raw32_range (view : DataView.t) (off : Z) : 0 <= raw32 view off < 2 ^ 32.
Proof.
unfold raw32. pose proof (be_range (slice view off 4)) as H.
pose proof (slice_length view off 4) as Hl.
assert (Hle : 256 ^ Z.of_nat (length (slice view off 4)) <= 256 ^ 4)
  by (apply Z.pow_le_mono_r; lia).
change (256 ^ 4) with (2 ^ 32) in Hle. lia.
Qed.

Lemma raw16_range (view : DataView.t) (off : Z) : 0 <= raw16 view off < 2 ^ 16.
Proof.
unfold raw16. pose proof (be_range (slice view off 2)) as H.
pose proof (slice_length view off 2) as Hl.
assert (Hle : 256 ^ Z.of_nat (length (slice view off 2)) <= 256 ^ 2)
  by (apply Z.pow_le_mono_r; lia).
change (256 ^ 2) with (2 ^ 16) in Hle. lia.
Qed.

Lemma scaled_nonneg (raw divisor : Z) :
  0 <= raw → 0 < divisor → (0 <= scaled raw divisor)%Q.
Proof.
intros Hr Hd. unfold scaled, num.
apply Qle_shift_div_l.
- change 0%Q with (inject_Z 0). rewrite <- Zlt_Qlt. exact Hd.
- rewrite Qmult_0_l. change 0%Q with (inject_Z 0). rewrite <- Zle_Qle. exact Hr.
Qed.

Lemma tradable_low_byte (t : Z) : tradable t = negb (t mod 256 =? 9).
Proof. unfold tradable. rewrite segment_mod_256. reflexivity. Qed.

End WireIntegers.

(** Four bytes read from the buffer are the big-endian number of
    those bytes: a read at an offset inside the buffer returns
    [b0 * 2^24 + b1 * 2^16 + b2 * 2^8 + b3], which lies in [0, 2^32);
    a read that would leave the buffer returns nothing. *)
Theorem getUint32_big_endian :
  ∀ (pre post : list byte) (b0 b1 b2 b3 : byte),
    getUint32 (pre ++ [b0; b1; b2; b3] ++ post) (Z.of_nat (length pre))
    = Some (octet b0 * 16777216 + octet b1 * 65536 + octet b2 * 256 + octet b3)
    ∧ 0 <= octet b0 * 16777216 + octet b1 * 65536 + octet b2 * 256 + octet b3
      < 2 ^ 32
    ∧ getUint32 (pre ++ [b0; b1; b2]) (Z.of_nat (length pre)) = None.
Proof.
intros pre post b0 b1 b2 b3. split; [|split].
- rewrite getUint32_in.
  + unfold raw32, slice. rewrite Nat2Z.id, drop_app_length.
    change (take 4 ([b0; b1; b2; b3] ++ post)) with [b0; b1; b2; b3].
    unfold be. cbn [foldl]. f_equal. lia.
  + unfold byteLength. rewrite !length_app. cbn [length]. lia.
- pose proof (octet_range b0). pose proof (octet_range b1).
  pose proof (octet_range b2). pose proof (octet_range b3).
  change (2 ^ 32) with 4294967296. lia.
- apply getUint32_out. unfold byteLength. rewrite length_app. cbn [length]. lia.
Qed.

(** ** What every tick has in common *)

(** The identifier, the flag and the last price, read from the first
    eight bytes of the record. *)
Definition header_of (view : DataView.t) (offset : Z) (tick : FeedData) : Prop :=
  InstrumentToken tick = Some (raw32 view offset)
  ∧ Tradable tick = Some (negb (raw32 view offset mod 256 =? 9))
  ∧ LastPrice tick
    = Some (scaled (raw32 view (offset + 4))
              (Utils.getDecimalDivisor (raw32 view offset)))
  ∧ is_Some (Mode tick)
  ∧ 0 <= offset ∧ offset + 8 <= byteLength view.

Section Header.

Context (this : MTicker) (view : DataView.t) (offset : Z).

Local Ltac header_done H :=
  injection H as <-; unfold header_of; cbn;
  rewrite ?tradable_low_byte; repeat split; eauto; lia.

Lemma readLTPBroadcast_header tick :
  readLTPBroadcast view offset = Some tick → header_of view offset tick.
Proof. intros H. unfold readLTPBroadcast in H. unread H. header_done H. Qed.

Lemma readQuoteIndex_header tick :
  readQuoteIndex view offset = Some tick → header_of view offset tick.
Proof. intros H. unfold readQuoteIndex in H. unread H. header_done H. Qed.

Lemma readFullIndex_header tick :
  readFullIndex this view offset = Some tick → header_of view offset tick.
Proof.
intros H. unfold readFullIndex in H. unread H.
destruct (getTokenMode this (raw32 view offset)); header_done H.
Qed.

Lemma readQuote_header tick :
  readQuote view offset = Some tick → header_of view offset tick.
Proof. intros H. unfold readQuote in H. unread H. header_done H. Qed.

Lemma readFullFeed_header length tick :
  readFullFeed view offset length = Some tick → header_of view offset tick.
Proof. intros H. unfold readFullFeed in H. unread H. header_done H. Qed.

Lemma createLTPFromPacket_header tick :
  0 <= offset →
  createLTPFromPacket view offset (raw32 view offset) = Some tick →
  header_of view offset tick.
Proof.
intros H0 H. unfold createLTPFromPacket in H. unread H. header_done H.
Qed.

Lemma createQuoteFromPacket_header length tick :
  createQuoteFromPacket view offset length = Some tick →
  header_of view offset tick.
Proof.
intros H. unfold createQuoteFromPacket in H. unread H. header_done H.
Qed.

Lemma readModeBasedData_header length tick :
  readModeBasedData this view offset length = Some tick →
  header_of view offset tick.
Proof.
intros H. unfold readModeBasedData in H.
apply bind_Some in H. destruct H as (token & Etoken & H).
apply getUint32_Some in Etoken. destruct Etoken as (-> & H0 & _).
destruct (getTokenMode this (raw32 view offset)).
- apply createLTPFromPacket_header; assumption.
- eapply createQuoteFromPacket_header, H.
- destruct (length =? 44).
  + apply readQuote_header, H.
  + eapply readFullFeed_header, H.
Qed.

Lemma dispatch_supported length r :
  dispatch this view offset length = Some r → supported length.
Proof.
intros H. destruct (decide (supported length)) as [Hs|Hs]; [exact Hs|].
rewrite dispatch_unsupported in H by exact Hs. discriminate H.
Qed.

Lemma parseTickData_reader length tick :
  fst (parseTickData this view offset length) = Some tick →
  dispatch this view offset length = Some (Some tick).
Proof.
unfold parseTickData.
destruct (dispatch this view offset length) as [[tick'|]|]; simpl;
  intros [=]; subst; reflexivity.
Qed.

Lemma parseTickData_header length tick :
  fst (parseTickData this view offset length) = Some tick →
  header_of view offset tick.
Proof.
intros H. apply parseTickData_reader in H.
pose proof (dispatch_supported _ _ H) as Hs.
destruct Hs as [->|[->|[->|Hm]]].
- injection H as H. apply readLTPBroadcast_header, H.
- injection H as H. apply readQuoteIndex_header, H.
- injection H as H. apply readFullIndex_header, H.
- assert (Hd : dispatch this view offset length
               = Some (readModeBasedData this view offset length)).
  { destruct Hm as [->|[->| ->]]; reflexivity. }
  rewrite Hd in H. injection H as H.
  eapply readModeBasedData_header, H.
Qed.

End Header.

(** X1.  Whatever the length of the record, the requested mode and the
    buffer, a tick that [parseTickData] returns carries a mode, the
    identifier found in the first four bytes of the record, the flag
    [Tradable], which is false exactly when the low byte of the
    identifier is 9, and the last price, which is the second word
    divided by the divisor of the identifier; nothing was logged; and
    the first eight bytes of the record are inside the buffer. *)
Theorem every_tick_has_header :
  ∀ (this : MTicker) (view : DataView.t) (offset length : Z) (tick : FeedData),
    fst (parseTickData this view offset length) = Some tick →
    InstrumentToken tick = Some (raw32 view offset)
    ∧ Tradable tick = Some (negb (raw32 view offset mod 256 =? 9))
    ∧ LastPrice tick
      = Some (scaled (raw32 view (offset + 4))
                (Utils.getDecimalDivisor (raw32 view offset)))
    ∧ is_Some (Mode tick)
    ∧ snd (parseTickData this view offset length) = []
    ∧ 0 <= offset ∧ offset + 8 <= byteLength view.
Proof.
intros this view offset length tick H.
destruct (parseTickData_header this view offset length tick H)
  as (Ht & Hf & Hp & Hm & H0 & Hb).
repeat (split; [assumption|]).
split; [|auto].
apply parseTickData_reader in H. unfold parseTickData. rewrite H. reflexivity.
Qed.

Lemma every_tick_has_header_witness :
  fst (parseTickData Fixture.fresh index_frame 4 32)
  = Some (index_full index_frame 4)
  ∧ InstrumentToken (index_full index_frame 4) = Some (raw32 index_frame 4)
  ∧ Tradable (index_full index_frame 4)
    = Some (negb (raw32 index_frame 4 mod 256 =? 9)).
Proof.
assert (H : fst (parseTickData Fixture.fresh index_frame 4 32)
            = Some (index_full index_frame 4)) by (vm_compute; reflexivity).
split; [exact H|].
destruct (every_tick_has_header Fixture.fresh index_frame 4 32 _ H)
  as (Ht & Hf & _).
split; [exact Ht|exact Hf].
Defined.

(** X2.  The identifier of a tick lies in [0, 2^32) and its last price
    is not negative. *)
Theorem tick_identifier_and_price_range :
  ∀ (this : MTicker) (view : DataView.t) (offset length : Z) (tick : FeedData),
    fst (parseTickData this view offset length) = Some tick →
    ∃ t p, InstrumentToken tick = Some t ∧ LastPrice tick = Some p
           ∧ 0 <= t < 2 ^ 32 ∧ (0 <= p)%Q.
Proof.
intros this view offset length tick H.
destruct (parseTickData_header this view offset length tick H)
  as (Ht & _ & Hp & _).
eexists _, _. split; [exact Ht|]. split; [exact Hp|].
split; [apply raw32_range|].
apply scaled_nonneg; [apply raw32_range|apply getDecimalDivisor_pos].
Qed.

Lemma tick_identifier_and_price_range_witness :
  fst (parseTickData Fixture.fresh ltp_frame 4 8) ≠ None
  ∧ ∃ tick t p,
      fst (parseTickData Fixture.fresh ltp_frame 4 8) = Some tick
      ∧ InstrumentToken tick = Some t ∧ LastPrice tick = Some p
      ∧ 0 <= t < 2 ^ 32 ∧ (0 <= p)%Q.
Proof.
destruct (fst (parseTickData Fixture.fresh ltp_frame 4 8)) as [tick|] eqn:E;
  [|vm_compute in E; discriminate E].
split; [discriminate|].
destruct (tick_identifier_and_price_range Fixture.fresh ltp_frame 4 8 tick E)
  as (t & p & H).
exists tick, t, p. split; [reflexivity|exact H].
Defined.

(** ** Quote mode *)

Section QuoteMode.

Context (view : DataView.t) (offset : Z).

Local Ltac next_read k :=
  destruct (getUint32 view (offset + k)); simpl; [|reflexivity].

Lemma createQuoteFromPacket_readQuote (length : Z) :
  44 <= length →
  createQuoteFromPacket view offset length = readQuote view offset.
Proof.
intros Hl. unfold createQuoteFromPacket, readQuote.
repeat match goal with
  | |- context [?k <=? length] =>
      replace (k <=? length) with true by (symmetry; apply Z.leb_le; lia)
  end.
destruct (getUint32 view offset); simpl; [|reflexivity].
next_read 4. next_read 8. next_read 12. next_read 16. next_read 20.
next_read 24. next_read 28. next_read 32. next_read 36. next_read 40.
reflexivity.
Qed.

End QuoteMode.

(** X3.  Under requested mode [Quote] a record of 44, 184 or 200 bytes
    is decoded exactly as a 44-byte record is under mode [Full]: same
    tick, or the same failure when the first 44 bytes are not all in
    the buffer.  The bytes after the 44th are never looked at. *)
Theorem quote_mode_is_the_44_byte_reader :
  ∀ (this this' : MTicker) (view : DataView.t) (offset length : Z),
    length = 44 ∨ length = 184 ∨ length = 200 →
    getTokenMode this (raw32 view offset) = Quote →
    getTokenMode this' (raw32 view offset) = Full →
    parseTickData this view offset length = parseTickData this' view offset 44
    ∧ (is_Some (fst (parseTickData this view offset length))
       ↔ 0 <= offset ∧ offset + 44 <= byteLength view).
Proof.
intros this this' view offset length Hl Hq Hf.
assert (Heq : parseTickData this view offset length
              = parseTickData this' view offset 44).
{ unfold parseTickData.
  assert (Hd : dispatch this view offset length
               = Some (readModeBasedData this view offset length)).
  { destruct Hl as [->|[->| ->]]; reflexivity. }
  rewrite Hd.
  change (dispatch this' view offset 44)
    with (Some (readModeBasedData this' view offset 44)).
  assert (Hr : readModeBasedData this view offset length
               = readModeBasedData this' view offset 44).
  { unfold readModeBasedData.
    destruct (getUint32 view offset) as [token|] eqn:E; simpl; [|reflexivity].
    apply getUint32_Some in E. destruct E as (-> & _ & _).
    rewrite Hq, Hf. change (44 =? 44) with true. cbv iota.
    apply createQuoteFromPacket_readQuote. lia. }
  rewrite Hr. reflexivity. }
split; [exact Heq|].
rewrite Heq. split.
- intros [tick Htick].
  apply parseTickData_reader in Htick.
  change (dispatch this' view offset 44)
    with (Some (readModeBasedData this' view offset 44)) in Htick.
  injection Htick as Htick. unfold readModeBasedData in Htick.
  apply bind_Some in Htick. destruct Htick as (token & Etoken & Htick).
  apply getUint32_Some in Etoken. destruct Etoken as (-> & H0 & _).
  rewrite Hf in Htick. change (44 =? 44) with true in Htick. cbv iota in Htick.
  split; [exact H0|]. apply (readQuote_tick view offset H0). eauto.
- intros [H0 Hb]. apply parseTickData_tick; [exact H0|].
  exists 44. rewrite Hf. split; [reflexivity|exact Hb].
Qed.

(** A 200-byte record whose buffer stops after its 44th byte. *)
Definition cut_200_frame : DataView.t :=
  Fixture.frame 1 [Fixture.record 200 (5633 :: Fixture.words 100 10)].

Lemma quote_mode_is_the_44_byte_reader_witness :
  (getTokenMode (setMode Quote [5633] Fixture.fresh) (raw32 cut_200_frame 4)
   = Quote
   ∧ getTokenMode Fixture.fresh (raw32 cut_200_frame 4) = Full)
  ∧ parseTickData (setMode Quote [5633] Fixture.fresh) cut_200_frame 4 200
    = parseTickData Fixture.fresh cut_200_frame 4 44.
Proof.
assert (Hq : getTokenMode (setMode Quote [5633] Fixture.fresh)
               (raw32 cut_200_frame 4) = Quote) by reflexivity.
assert (Hf : getTokenMode Fixture.fresh (raw32 cut_200_frame 4) = Full)
  by reflexivity.
split; [auto|].
exact (proj1 (quote_mode_is_the_44_byte_reader
                (setMode Quote [5633] Fixture.fresh) Fixture.fresh
                cut_200_frame 4 200 (or_intror (or_intror eq_refl)) Hq Hf)).
Defined.

(** ** Market depth *)

Section DepthLength.

Context (view : DataView.t) (divisor : Z).

Lemma readDepth_length (n : nat) :
  ∀ (off : Z) (l : list DepthItem),
    readDepth view divisor n off = Some l → length l = n.
Proof.
induction n as [|n IH]; intros off l H.
- injection H as <-. reflexivity.
- rewrite readDepth_S in H. unread H.
  match goal with
  | E : readDepth _ _ n _ = Some ?r |- _ => apply IH in E; rename E into Hlen
  end.
  injection H as <-. simpl. rewrite Hlen. reflexivity.
Qed.

Lemma readDepth_orders (n : nat) :
  ∀ (off : Z) (l : list DepthItem),
    readDepth view divisor n off = Some l →
    Forall (λ d, ∃ o, Orders d = num o ∧ 0 <= o < 2 ^ 16) l.
Proof.
induction n as [|n IH]; intros off l H.
- injection H as <-. constructor.
- rewrite readDepth_S in H. unread H.
  match goal with
  | E : readDepth _ _ n _ = Some ?r |- _ => apply IH in E; rename E into Hall
  end.
  injection H as <-. constructor; [|exact Hall].
  eexists. split; [reflexivity|]. apply raw16_range.
Qed.

End DepthLength.

(** X4.  A tick carries market depth only when it comes from a record of
    184 or 200 bytes decoded under mode [Full]; it then has exactly
    five bids and five offers, each with an order count below 2^16, and
    the 200 bytes that follow the start of the record are all in the
    buffer, also when the record declares 184. *)
Theorem depth_only_in_full_ticks :
  ∀ (this : MTicker) (view : DataView.t) (offset length : Z) (tick : FeedData),
    fst (parseTickData this view offset length) = Some tick →
    (Bids tick = None ∧ Offers tick = None)
    ∨ ((length = 184 ∨ length = 200)
       ∧ getTokenMode this (raw32 view offset) = Full
       ∧ offset + 200 <= byteLength view
       ∧ ∃ bids offers,
           Bids tick = Some bids ∧ Offers tick = Some offers
           ∧ List.length bids = 5%nat ∧ List.length offers = 5%nat
           ∧ Forall (λ d, ∃ o, Orders d = num o ∧ 0 <= o < 2 ^ 16)
               (bids ++ offers)).
Proof.
intros this view offset length tick H.
apply parseTickData_reader in H.
pose proof (dispatch_supported _ _ _ _ _ H) as Hs.
destruct Hs as [->|[->|[->|Hm]]].
- left. injection H as H. unfold readLTPBroadcast in H. unread H.
  injection H as <-. auto.
- left. injection H as H. unfold readQuoteIndex in H. unread H.
  injection H as <-. auto.
- left. injection H as H. unfold readFullIndex in H. unread H.
  destruct (getTokenMode this (raw32 view offset)); injection H as <-; auto.
- assert (Hd : dispatch this view offset length
               = Some (readModeBasedData this view offset length)).
  { destruct Hm as [->|[->| ->]]; reflexivity. }
  rewrite Hd in H. injection H as H. unfold readModeBasedData in H.
  apply bind_Some in H. destruct H as (token & Etoken & H).
  apply getUint32_Some in Etoken. destruct Etoken as (-> & H0 & _).
  destruct (getTokenMode this (raw32 view offset)) eqn:Hmode.
  + left. unfold createLTPFromPacket in H. unread H. injection H as <-. auto.
  + left. unfold createQuoteFromPacket in H. unread H. injection H as <-. auto.
  + destruct Hm as [->|Hm].
    * left. change (44 =? 44) with true in H. cbv iota in H.
      unfold readQuote in H. unread H. injection H as <-. auto.
    * right. split; [exact Hm|]. split; [reflexivity|].
      replace (length =? 44) with false in H
        by (destruct Hm as [->| ->]; reflexivity).
      assert (Hb : offset + 200 <= byteLength view).
      { apply (readFullFeed_tick view offset H0 length). eauto. }
      split; [exact Hb|].
      unfold readFullFeed in H. unread H. injection H as <-.
      repeat match goal with
        | E : readDepth _ _ _ _ = Some _ |- _ =>
            pose proof (readDepth_length _ _ _ _ _ E);
            pose proof (readDepth_orders _ _ _ _ _ E);
            clear E
        end.
      eexists _, _. cbn. split; [reflexivity|]. split; [reflexivity|].
      split; [assumption|]. split; [assumption|].
      apply Forall_app. split; assumption.
Qed.

Lemma depth_only_in_full_ticks_witness :
  is_Some (fst (parseTickData Fixture.fresh full_200_frame 4 200))
  ∧ ∃ tick bids offers,
      fst (parseTickData Fixture.fresh full_200_frame 4 200) = Some tick
      ∧ Bids tick = Some bids ∧ Offers tick = Some offers
      ∧ List.length bids = 5%nat ∧ List.length offers = 5%nat.
Proof.
destruct (fst (parseTickData Fixture.fresh full_200_frame 4 200))
  as [tick|] eqn:E; [|vm_compute in E; discriminate E].
split; [eauto|].
destruct (depth_only_in_full_ticks Fixture.fresh full_200_frame 4 200 tick E)
  as [[Hb _]|(_ & _ & _ & bids & offers & Hb & Ho & Hlb & Hlo & _)].
- exfalso. vm_compute in E. injection E as <-. discriminate Hb.
- exists tick, bids, offers. auto.
Defined.

(** ** What decoding a frame does to the client *)

(** The effects a decoder can have: a line on the console, or a tick
    handed to [onBroadcastReceived]. *)
Definition decoder_effect (e : effect) : Prop :=
  match e with
  | Console _ _ | OnBroadcastReceived _ => True
  | _ => False
  end.

Section FrameEffects.

Context (this : MTicker) (view : DataView.t).

Lemma parseTickData_one_effect (offset len : Z) :
  length
    (snd (parseTickData this view offset len)
       ++ called (fst (parseTickData this view offset len))) = 1%nat
  ∧ Forall decoder_effect
      (snd (parseTickData this view offset len)
         ++ called (fst (parseTickData this view offset len))).
Proof.
unfold parseTickData.
destruct (dispatch this view offset len) as [[tick|]|]; simpl;
  (split; [reflexivity|repeat constructor]).
Qed.

Lemma parseRecords_effects count :
  ∀ offset,
    (length (fst (parseRecords this view count offset)) <= count)%nat
    ∧ Forall decoder_effect (fst (parseRecords this view count offset)).
Proof.
induction count as [|count IH]; intros offset.
- simpl. split; [lia|constructor].
- cbn [parseRecords].
  destruct (byteLength view <=? offset); [simpl; split; [lia|constructor]|].
  destruct (getUint16 view offset) as [len|];
    [|simpl; split; [lia|constructor]].
  pose proof (parseTickData_one_effect (offset + 2) len) as [Hone Hdec].
  destruct (parseTickData this view (offset + 2) len) as [tick logged].
  destruct (IH (offset + 2 + len)) as [Hlen Hall].
  destruct (parseRecords this view count (offset + 2 + len)) as [rest c].
  simpl in *. rewrite app_assoc. split.
  + rewrite length_app. fold (called tick). lia.
  + apply Forall_app. split; [exact Hdec|exact Hall].
Qed.

End FrameEffects.

(** The records the loop of [parseBinaryMessage] goes through, with
    [count] turns left at [offset]: for each the offset of its payload
    and its declared length, and how the walk ends. *)
Fixpoint records (view : DataView.t) (count : nat) (offset : Z)
  : list (Z * Z) * completion :=
  match count with
  | O => ([], Normal)
  | S count' =>
      if byteLength view <=? offset then ([], Normal)
      else
        match getUint16 view offset with
        | None => ([], Thrown)
        | Some length =>
            let '(rest, c) := records view count' (offset + 2 + length) in
            ((offset + 2, length) :: rest, c)
        end
  end.

(** What one record leaves: the console line or the tick. *)
Definition record_effects (this : MTicker) (view : DataView.t) (r : Z * Z)
  : list effect :=
  snd (parseTickData this view (fst r) (snd r))
    ++ called (fst (parseTickData this view (fst r) (snd r))).

Section RecordsWalk.

Context (this : MTicker) (view : DataView.t).

Lemma parseRecords_records (count : nat) :
  ∀ offset,
    parseRecords this view count offset
    = (concat (map (record_effects this view)
                 (fst (records view count offset))),
       snd (records view count offset)).
Proof.
induction count as [|count IH]; intros offset; [reflexivity|].
cbn [parseRecords records].
destruct (byteLength view <=? offset); [reflexivity|].
destruct (getUint16 view offset) as [len|]; [|reflexivity].
rewrite (IH (offset + 2 + len)).
destruct (parseTickData this view (offset + 2) len) as [tick logged] eqn:E.
destruct (records view count (offset + 2 + len)) as [rest c].
cbn [fst snd map concat]. unfold record_effects at 2. cbn [fst snd].
rewrite E. cbn [fst snd]. fold (called tick).
rewrite app_assoc. reflexivity.
Qed.

Lemma records_length (count : nat) :
  ∀ offset, (length (fst (records view count offset)) <= count)%nat.
Proof.
induction count as [|count IH]; intros offset; [simpl; lia|].
cbn [records].
destruct (byteLength view <=? offset); [simpl; lia|].
destruct (getUint16 view offset) as [len|]; [|simpl; lia].
specialize (IH (offset + 2 + len)).
destruct (records view count (offset + 2 + len)) as [rest c].
simpl in *. lia.
Qed.

Lemma record_effects_one (r : Z * Z) :
  (∃ tick, fst (parseTickData this view (fst r) (snd r)) = Some tick
           ∧ record_effects this view r = [OnBroadcastReceived tick])
  ∨ (fst (parseTickData this view (fst r) (snd r)) = None
     ∧ ∃ l text, record_effects this view r = [Console l text]).
Proof.
unfold record_effects, parseTickData.
destruct (dispatch this view (fst r) (snd r)) as [[tick|]|]; simpl; eauto 6.
Qed.

Lemma concat_singletons {A} (f : Z * Z → list A) (l : list (Z * Z)) :
  (∀ r, length (f r) = 1%nat) → length (concat (map f l)) = length l.
Proof.
intros H. induction l as [|r l IH]; [reflexivity|].
simpl. rewrite length_app, H, IH. reflexivity.
Qed.

End RecordsWalk.

(** X5.  Handling a binary frame only appends effects to the record of
    the client: no field of the client changes, nothing is sent and no
    socket or timer is touched.  The records processed are those the
    loop walks through, at most as many as the record count in the
    first two bytes of the frame.  Each of them leaves exactly one
    effect, in wire order: the call of [onBroadcastReceived] with its
    tick when [parseTickData] returns one, and one console line when it
    returns none.  After these comes one error line exactly when the
    parser threw, and nothing otherwise. *)
Theorem frame_leaves_client_alone :
  ∀ (this : MTicker) (data : DataView.t),
    let walked :=
      match getUint16 data 0 with
      | Some count => records data (Z.to_nat count) 2
      | None => ([], Thrown)
      end in
    parseBinaryMessage this data
    = (concat (map (record_effects this data) (fst walked)), snd walked)
    ∧ (∀ r,
         (∃ tick, fst (parseTickData this data (fst r) (snd r)) = Some tick
                  ∧ record_effects this data r = [OnBroadcastReceived tick])
         ∨ (fst (parseTickData this data (fst r) (snd r)) = None
            ∧ ∃ l text, record_effects this data r = [Console l text]))
    ∧ length (fst (parseBinaryMessage this data)) = length (fst walked)
    ∧ (length (fst walked) <= Z.to_nat (raw16 data 0))%nat
    ∧ handleBinaryMessage this data
      = (emit (fst (parseBinaryMessage this data)
                 ++ match snd (parseBinaryMessage this data) with
                    | Thrown =>
                        [Console error "Failed to parse binary message:"]
                    | Normal => []
                    end) this,
         Normal)
    ∧ Forall decoder_effect (fst (parseBinaryMessage this data)).
Proof.
intros this data walked.
assert (Hparse : parseBinaryMessage this data
                 = (concat (map (record_effects this data) (fst walked)),
                    snd walked)).
{ unfold parseBinaryMessage. subst walked.
  destruct (getUint16 data 0) as [count|]; [|reflexivity].
  apply parseRecords_records. }
assert (Hone : ∀ r, length (record_effects this data r) = 1%nat).
{ intros r.
  destruct (record_effects_one this data r)
    as [(tick & _ & ->)|(_ & l & text & ->)]; reflexivity. }
split; [exact Hparse|].
split; [apply record_effects_one|].
split; [rewrite Hparse; apply concat_singletons, Hone|].
split.
{ subst walked. destruct (getUint16 data 0) as [count|] eqn:E.
  - apply getUint16_Some in E. destruct E as (-> & _). apply records_length.
  - simpl. lia. }
split.
{ unfold handleBinaryMessage.
  destruct (parseBinaryMessage this data) as [es []]; cbn [fst snd];
    rewrite ?app_nil_r; reflexivity. }
unfold parseBinaryMessage.
destruct (getUint16 data 0) as [count|]; [|constructor].
apply parseRecords_effects.
Qed.

Example unknown_then_ltp_records :
  records unknown_then_ltp 2 2 = ([(4, 9); (15, 8)], Normal)
  ∧ records [Byte.x00; Byte.x02; Byte.x00] 2 2 = ([], Thrown).
Proof. split; reflexivity. Qed.

(** ** The mode table across the life of the client *)

(** The requested mode of [t] after event [e], given the one before. *)
Definition requested_after (t : Z) (before : mode) (e : event) : mode :=
  match e with
  | CallSetMode m tokens => if decide (t ∈ tokens) then m else before
  | _ => before
  end.

Section ModeTable.

Lemma sendLoginAfterConnect_registry this :
  subscribedTokens (sendLoginAfterConnect this) = subscribedTokens this
  ∧ tokenModes (sendLoginAfterConnect this) = tokenModes this.
Proof.
unfold sendLoginAfterConnect, resubscribeTokens.
destruct (ws this) as [s|]; [|auto].
destruct (bool_decide (sockets this !! s = Some OPEN)); [|auto].
destruct (bool_decide _); [|auto].
exact (sendSubscriptionMessage_state _ _ _).
Qed.

Lemma step_tokenModes this e :
  (∀ m tokens, e ≠ CallSetMode m tokens) →
  tokenModes (step this e) = tokenModes this.
Proof.
intros Hne. destruct e; simpl.
- exact (proj2 (step_automatic_registry this (SocketOpen s) eq_refl)).
- exact (proj2 (step_automatic_registry this (SocketError s) eq_refl)).
- exact (proj2 (step_automatic_registry this (SocketClose s) eq_refl)).
- exact (proj2 (step_automatic_registry this (SocketBinary s data) eq_refl)).
- exact (proj2 (step_automatic_registry this (Timeout constructed) eq_refl)).
- unfold connect. destruct (ws_open this); [reflexivity|].
  exact (proj2 (createWebSocketConnection_registry _ _)).
- unfold disconnect. simpl. destruct (ws this); reflexivity.
- unfold subscribe. destruct (bool_decide _); [reflexivity|].
  exact (proj2 (sendSubscriptionMessage_state _ _ _)).
- unfold unsubscribe. destruct (bool_decide _); [reflexivity|].
  exact (proj2 (sendSubscriptionMessage_state _ _ _)).
- exfalso. eapply Hne. reflexivity.
- unfold subscribeWithMode. destruct (ws this); [|reflexivity].
  destruct (bool_decide _); reflexivity.
- exact (proj2 (sendLoginAfterConnect_registry this)).
Qed.

Lemma step_getTokenMode this e t :
  getTokenMode (step this e) t = requested_after t (getTokenMode this t) e.
Proof.
destruct e;
  try (unfold getTokenMode; rewrite step_tokenModes by discriminate;
       reflexivity).
simpl. apply getTokenMode_setMode.
Qed.

End ModeTable.

(** X6.  Through any sequence of calls and events, the mode the decoder
    uses for an identifier is the mode of the last [setMode] that named
    it, and the mode it had at the start when there was none: nothing
    else writes the mode table, neither [subscribeWithMode] nor
    [disconnect] nor a reconnection; and an entry, once made, is never
    removed. *)
Theorem requested_mode_is_last_setMode :
  ∀ (es : list event) (this : MTicker) (t : Z),
    getTokenMode (run es this) t
    = foldl (requested_after t) (getTokenMode this t) es
    ∧ (is_Some (tokenModes this !! t) →
       is_Some (tokenModes (run es this) !! t)).
Proof.
induction es as [|e es IH]; intros this t; [auto|].
change (run (e :: es) this) with (run es (step this e)).
destruct (IH (step this e) t) as [Hmode Hkeep].
split.
- rewrite Hmode, step_getTokenMode. reflexivity.
- intros Hsome. apply Hkeep.
  destruct e; try (rewrite step_tokenModes by discriminate; exact Hsome).
  simpl. rewrite tokenModes_setMode, set_all_lookup.
  destruct (decide (t ∈ tokens)); [eauto|exact Hsome].
Qed.

Lemma requested_mode_is_last_setMode_witness :
  is_Some (tokenModes (setMode Ltp [5633] Fixture.fresh) !! 5633)
  ∧ is_Some
      (tokenModes
         (run [CallConnect true; SocketOpen 0; CallSubscribeWithMode Full [5633];
               CallDisconnect; CallConnect true]
            (setMode Ltp [5633] Fixture.fresh)) !! 5633)
  ∧ getTokenMode
      (run [CallConnect true; SocketOpen 0; CallSubscribeWithMode Full [5633];
            CallDisconnect; CallConnect true]
         (setMode Ltp [5633] Fixture.fresh)) 5633 = Ltp.
Proof.
assert (Hs : is_Some (tokenModes (setMode Ltp [5633] Fixture.fresh) !! 5633))
  by (exists Ltp; reflexivity).
split; [exact Hs|].
destruct (requested_mode_is_last_setMode
            [CallConnect true; SocketOpen 0; CallSubscribeWithMode Full [5633];
             CallDisconnect; CallConnect true]
            (setMode Ltp [5633] Fixture.fresh) 5633) as [Hmode Hkeep].
split; [exact (Hkeep Hs)|exact Hmode].
Defined.

(** ** Login and resubscription *)

Section Login.

Lemma sendSubscriptionMessage_open action tokens this s :
  ws this = Some s →
  sockets this !! s = Some OPEN →
  sendSubscriptionMessage action tokens this
  = emit [Send s (Subscription action tokens)] this.
Proof.
intros Hws Hs. unfold sendSubscriptionMessage. rewrite Hws.
rewrite bool_decide_eq_true_2 by exact Hs. reflexivity.
Qed.

Lemma emit_emit es1 es2 this :
  emit es2 (emit es1 this) = emit (es1 ++ es2) this.
Proof. unfold emit. simpl. rewrite app_assoc. reflexivity. Qed.

Lemma sendLoginAfterConnect_open this s :
  ws this = Some s →
  sockets this !! s = Some OPEN →
  sendLoginAfterConnect this =
    if decide (subscribedTokens this = ∅)
    then emit [Send s Login] this
    else emit [Send s Login;
               Send s (Subscription "subscribe"
                         (elements (subscribedTokens this)))] this.
Proof.
intros Hws Hs. unfold sendLoginAfterConnect. rewrite Hws.
rewrite bool_decide_eq_true_2 by exact Hs.
unfold resubscribeTokens. simpl.
destruct (decide (subscribedTokens this = ∅)) as [He|Hne].
- rewrite He. reflexivity.
- rewrite bool_decide_eq_true_2.
  + rewrite (sendSubscriptionMessage_open _ _ _ s) by (simpl; assumption).
    apply emit_emit.
  + destruct (size (subscribedTokens this)) eqn:Hsize; [|lia].
    exfalso. apply Hne. apply leibniz_equiv, size_empty_iff, Hsize.
Qed.

End Login.

(** X7.  [sendLoginAfterConnect] does nothing at all when the socket is
    not open.  On an open socket it sends the login line and then, when
    the subscribed set is not empty, one subscribe message that lists
    every subscribed identifier once; it changes neither the subscribed
    set nor the mode table.  As socket events, frames and timers leave
    the subscribed set alone, the identifiers replayed after an
    automatic reconnection are those subscribed before it. *)
Theorem login_replays_subscriptions :
  ∀ (this : MTicker) (es : list event),
    (isConnected this = false → sendLoginAfterConnect this = this)
    ∧ (isConnected this = true →
       ∃ s, ws this = Some s
            ∧ (subscribedTokens this = ∅ →
               sendLoginAfterConnect this = emit [Send s Login] this)
            ∧ (subscribedTokens this ≠ ∅ →
               ∃ tokens,
                 sendLoginAfterConnect this
                 = emit [Send s Login;
                         Send s (Subscription "subscribe" tokens)] this
                 ∧ NoDup tokens
                 ∧ ∀ t, t ∈ tokens ↔ t ∈ subscribedTokens this))
    ∧ (Forall (λ e, automatic e = true) es →
       subscribedTokens (sendLoginAfterConnect (run es this))
       = subscribedTokens this).
Proof.
intros this es. split; [|split].
- intros Hc. unfold sendLoginAfterConnect.
  destruct (ws_open_false_cases this Hc) as [-> | (s & -> & Hs)];
    [reflexivity|].
  rewrite bool_decide_eq_false_2 by exact Hs. reflexivity.
- intros Hc. destruct (ws_open_true_cases this Hc) as (s & Hws & Hs).
  exists s. split; [exact Hws|].
  rewrite (sendLoginAfterConnect_open this s Hws Hs). split.
  + intros He. rewrite decide_True by exact He. reflexivity.
  + intros Hne. rewrite decide_False by exact Hne.
    exists (elements (subscribedTokens this)).
    split; [reflexivity|]. split; [apply NoDup_elements|].
    intros t. apply elem_of_elements.
- intros Hes.
  rewrite (proj1 (sendLoginAfterConnect_registry (run es this))).
  apply run_automatic_registry, Hes.
Qed.

Lemma login_replays_subscriptions_witness :
  (isConnected streaming = true ∧ subscribedTokens streaming ≠ ∅)
  ∧ ∃ s tokens,
      sendLoginAfterConnect streaming
      = emit [Send s Login; Send s (Subscription "subscribe" tokens)] streaming
      ∧ NoDup tokens.
Proof.
assert (Hc : isConnected streaming = true) by (vm_compute; reflexivity).
assert (Hne : subscribedTokens streaming ≠ ∅).
{ intros He. assert (Hin : 5633 ∈ subscribedTokens streaming)
    by (vm_compute; reflexivity).
  rewrite He in Hin. exact (not_elem_of_empty (C := gset Z) 5633 Hin). }
split; [auto|].
destruct (login_replays_subscriptions streaming []) as (_ & Hopen & _).
destruct (Hopen Hc) as (s & _ & _ & Hsome).
destruct (Hsome Hne) as (tokens & Heq & Hnd & _).
exists s, tokens. auto.
Defined.

(** ** Subscribing and unsubscribing *)

Section Subscriptions.

Lemma subscribedTokens_subscribe tokens this :
  subscribedTokens (subscribe tokens this)
  = subscribedTokens this ∪ list_to_set tokens.
Proof.
unfold subscribe. destruct (bool_decide_reflect (tokens = [])) as [->|Hne].
- simpl. set_solver.
- rewrite (proj1 (sendSubscriptionMessage_state _ _ _)). simpl.
  apply add_all_union.
Qed.

Lemma subscribedTokens_unsubscribe tokens this :
  subscribedTokens (unsubscribe tokens this)
  = subscribedTokens this ∖ list_to_set tokens.
Proof.
unfold unsubscribe. destruct (bool_decide_reflect (tokens = [])) as [->|Hne].
- simpl. set_solver.
- rewrite (proj1 (sendSubscriptionMessage_state _ _ _)). simpl.
  apply delete_all_difference.
Qed.

End Subscriptions.

(** X8.  On the subscribed set, [subscribe] is a union and [unsubscribe]
    a difference, for every list, the empty one and lists with repeats
    included.  So subscribing twice is subscribing once, two
    subscriptions amount to one of the concatenated list, every
    identifier passed to [subscribe] is returned by
    [getSubscribedTokens], none passed to [unsubscribe] is, and
    [unsubscribe] undoes [subscribe] when none of the identifiers was
    subscribed before. *)
Theorem subscribe_unsubscribe_algebra :
  ∀ (this : MTicker) (a b : list Z),
    subscribedTokens (subscribe a (subscribe a this))
      = subscribedTokens (subscribe a this)
    ∧ subscribedTokens (subscribe b (subscribe a this))
      = subscribedTokens (subscribe (a ++ b) this)
    ∧ (∀ t, t ∈ a → t ∈ getSubscribedTokens (subscribe a this))
    ∧ (∀ t, t ∈ a → t ∉ getSubscribedTokens (unsubscribe a this))
    ∧ ((∀ t, t ∈ a → t ∉ subscribedTokens this) →
       subscribedTokens (unsubscribe a (subscribe a this))
       = subscribedTokens this).
Proof.
intros this a b. unfold getSubscribedTokens.
rewrite !subscribedTokens_unsubscribe, !subscribedTokens_subscribe.
split; [set_solver|]. split; [set_solver|].
split; [intros t Ht; apply elem_of_elements; set_solver|].
split; [intros t Ht; rewrite elem_of_elements; set_solver|].
intros Hfresh. apply set_eq. intros t.
rewrite elem_of_difference, elem_of_union, elem_of_list_to_set.
specialize (Hfresh t). tauto.
Qed.

Lemma subscribe_unsubscribe_algebra_witness :
  (∀ t, t ∈ [5633; 2885] → t ∉ subscribedTokens Fixture.fresh)
  ∧ subscribedTokens (unsubscribe [5633; 2885]
                        (subscribe [5633; 2885] Fixture.fresh))
    = subscribedTokens Fixture.fresh.
Proof.
assert (Hfresh : ∀ t, t ∈ [5633; 2885] → t ∉ subscribedTokens Fixture.fresh).
{ intros t _. exact (not_elem_of_empty (C := gset Z) t). }
split; [exact Hfresh|].
destruct (subscribe_unsubscribe_algebra Fixture.fresh [5633; 2885] [])
  as (_ & _ & _ & _ & Hundo).
exact (Hundo Hfresh).
Defined.

(** ** The budget of reconnection attempts *)



Section Budget.

Context (mx : Z).








End Budget.



(** A client configured with a maximum of -1 never reconnects. *)
Example negative_maximum :
  let this :=
    run [CallConnect true; SocketOpen 0; SocketError 0; SocketClose 0]
      (constructor {| cfg_maxReconnectionAttempts := Some (-1);
                      cfg_reconnectDelay := None |}) in
  maxReconnectionAttempts this = -1
  ∧ reconnectionAttempts this = 0
  ∧ reconnects this = [NewSocket 0]
  ∧ last (out this) = Some (Console error "Max reconnection attempts reached").
Proof. repeat split; vm_compute; reflexivity. Qed.

(** ** After a manual close *)

(** [this'] has the manual-close flag set and differs from [this] by no
    reconnection effect, no socket and no change of [this.ws]. *)
Definition dormant (this this' : MTicker) : Prop :=
  isManualClose this' = true
  ∧ reconnects this' = reconnects this
  ∧ length (sockets this') = length (sockets this)
  ∧ ws this' = ws this.

Section ManualClose.

Local Ltac dormancy :=
  unfold dormant, reconnects in *; simpl in *;
  rewrite ?List.filter_app; simpl; rewrite ?app_nil_r, ?length_insert;
  repeat split; try assumption; try reflexivity.

Lemma scheduleReconnection_manual this :
  isManualClose this = true → dormant this (scheduleReconnection this).
Proof.
intros Hm. unfold scheduleReconnection. rewrite Hm, andb_false_r.
destruct (maxReconnectionAttempts this <=? reconnectionAttempts this);
  dormancy.
Qed.

Lemma dormant_trans a b c : dormant a b → dormant b c → dormant a c.
Proof.
unfold dormant. intros (?&?&?&?) (?&?&?&?). repeat split; congruence.
Qed.

Lemma step_dormant this e :
  isManualClose this = true → automatic e = true → dormant this (step this e).
Proof.
intros Hm He. destruct e; try discriminate He; simpl.
- unfold handleOpen. dormancy.
- unfold handleError.
  eapply dormant_trans; [|apply scheduleReconnection_manual; exact Hm].
  dormancy.
- unfold handleClose. simpl. rewrite Hm. simpl. dormancy.
- destruct (handleBinaryMessage_emit this data) as (es & -> & Hq).
  unfold dormant. rewrite reconnects_emit by exact Hq. auto.
- unfold timeout. destruct (timers this) as [|n]; [dormancy|].
  simpl. rewrite Hm. simpl. dormancy.
Qed.

Lemma run_dormant es :
  ∀ this,
    isManualClose this = true →
    Forall (λ e, automatic e = true) es →
    dormant this (run es this).
Proof.
induction es as [|e es IH]; intros this Hm Hes.
- unfold dormant. auto.
- apply Forall_cons in Hes. destruct Hes as [He Hes].
  change (run (e :: es) this) with (run es (step this e)).
  pose proof (step_dormant this e Hm He) as Hstep.
  eapply dormant_trans; [exact Hstep|].
  apply IH; [exact (proj1 Hstep)|exact Hes].
Qed.

End ManualClose.

(** X10.  After [disconnect], and until the application calls the client
    again, nothing its sockets and timers do brings the connection
    back: the manual-close flag stays set, [this.ws] stays empty and
    [isConnected] false, no socket is created, no timer is armed and
    [onReconnecting] is not called; this holds also for a timer that
    was armed before the call and for a socket that opens after it. *)
Theorem disconnect_stops_reconnection :
  ∀ (this : MTicker) (es : list event),
    Forall (λ e, automatic e = true) es →
    isManualClose (run es (disconnect this)) = true
    ∧ ws (run es (disconnect this)) = None
    ∧ isConnected (run es (disconnect this)) = false
    ∧ length (sockets (run es (disconnect this))) = length (sockets this)
    ∧ reconnects (run es (disconnect this)) = reconnects this.
Proof.
intros this es Hes.
assert (Hd : isManualClose (disconnect this) = true
             ∧ reconnects (disconnect this) = reconnects this
             ∧ length (sockets (disconnect this)) = length (sockets this)
             ∧ ws (disconnect this) = None).
{ unfold disconnect, reconnects. simpl.
  destruct (ws this) as [s|] eqn:Hw; simpl;
    rewrite ?Hw, ?List.filter_app, ?length_alter; simpl;
    rewrite ?app_nil_r; auto. }
destruct Hd as (Hm & Hr & Hl & Hws).
destruct (run_dormant es (disconnect this) Hm Hes) as (Hm' & Hr' & Hl' & Hws').
split; [exact Hm'|]. split; [congruence|].
split; [unfold isConnected, ws_open; rewrite Hws', Hws; reflexivity|].
split; congruence.
Qed.

(** A client whose socket failed once, so that a reconnection timer is
    armed. *)
Definition waiting : MTicker :=
  run [CallConnect true; SocketOpen 0; SocketClose 0] Fixture.fresh.

Lemma disconnect_stops_reconnection_witness :
  (timers waiting = 1%nat
   ∧ Forall (λ e, automatic e = true)
       [Timeout true; SocketOpen 0; SocketError 0; SocketClose 0])
  ∧ isConnected
      (run [Timeout true; SocketOpen 0; SocketError 0; SocketClose 0]
         (disconnect waiting)) = false
  ∧ reconnects
      (run [Timeout true; SocketOpen 0; SocketError 0; SocketClose 0]
         (disconnect waiting)) = reconnects waiting.
Proof.
assert (Ht : timers waiting = 1%nat) by (vm_compute; reflexivity).
assert (Hes : Forall (λ e, automatic e = true)
                [Timeout true; SocketOpen 0; SocketError 0; SocketClose 0])
  by (repeat constructor).
split; [auto|].
destruct (disconnect_stops_reconnection waiting
            [Timeout true; SocketOpen 0; SocketError 0; SocketClose 0] Hes)
  as (_ & _ & Hc & _ & Hr).
split; [exact Hc|exact Hr].
Defined.

(** ** Failures and attempts *)


Section Failures.



End Failures.


(** A connected client. *)
Definition connected : MTicker :=
  run [CallConnect true; SocketOpen 0] Fixture.fresh.


Example error_then_close_uses_two :
  reconnectionAttempts (run [SocketError 0; SocketClose 0] connected) = 2
  ∧ timers (run [SocketError 0; SocketClose 0] connected) = 2%nat.
Proof. split; vm_compute; reflexivity. Qed.

(** ** A new client *)


(** ** Connecting *)

Section Connecting.

Lemma connect_new_socket this :
  isConnected this = false →
  connect true this
  = emit [NewSocket (length (sockets this))]
      (with_ws (Some (length (sockets this)))
         (with_sockets (sockets this ++ [CONNECTING])
            (with_isManualClose false this))).
Proof.
intros Hc. unfold connect. unfold isConnected in Hc. rewrite Hc. reflexivity.
Qed.

End Connecting.

(** X13.  On a client that is connected, [connect] only logs a warning.
    On a client that is not, also one whose socket is still connecting,
    it clears the manual-close flag and creates one more socket, which
    becomes [this.ws]; the client is not yet connected; it is once that
    socket opens, which also puts the attempt counter back to 0; the
    subscribed set and the mode table are as before the call. *)
Theorem connect_then_open :
  ∀ (this : MTicker) (constructed : bool),
    (isConnected this = true →
     connect constructed this
     = emit [Console warn "WebSocket is already connected"] this)
    ∧ (isConnected this = false →
       let n := length (sockets this) in
       let opened := step (connect true this) (SocketOpen n) in
       ws (connect true this) = Some n
       ∧ sockets (connect true this) = sockets this ++ [CONNECTING]
       ∧ isManualClose (connect true this) = false
       ∧ isConnected (connect true this) = false
       ∧ isConnected opened = true
       ∧ reconnectionAttempts opened = 0
       ∧ subscribedTokens opened = subscribedTokens this
       ∧ tokenModes opened = tokenModes this).
Proof.
intros this constructed. split.
- intros Hc. unfold connect. unfold isConnected in Hc. rewrite Hc. reflexivity.
- intros Hc n opened. subst opened n.
  rewrite (connect_new_socket this Hc). simpl.
  unfold isConnected, ws_open. simpl.
  repeat (split; [reflexivity|]). split; [|split].
  + apply bool_decide_eq_false.
    rewrite lookup_app_r by lia. rewrite Nat.sub_diag. simpl. discriminate.
  + apply bool_decide_eq_true.
    rewrite list_lookup_insert_eq; [reflexivity|].
    rewrite length_app. simpl. lia.
  + repeat split; reflexivity.
Qed.

Lemma connect_then_open_witness :
  isConnected waiting = false
  ∧ ws (connect true waiting) = Some 1%nat
  ∧ isConnected (connect true waiting) = false
  ∧ isConnected (step (connect true waiting) (SocketOpen 1)) = true.
Proof.
assert (Hc : isConnected waiting = false) by (vm_compute; reflexivity).
split; [exact Hc|].
destruct (connect_then_open waiting true) as [_ H].
destruct (H Hc) as (Hws & _ & _ & Hnot & Hopen & _).
split; [exact Hws|]. split; [exact Hnot|exact Hopen].
Defined.

(** ** Timestamps *)

(** [d] is a whole number of seconds, fewer than 2^32, after
    1980-01-01T00:00:00Z. *)
Definition wire_date (d : Utils.Date) : Prop :=
  ∃ secs, 0 <= secs < 2 ^ 32 ∧ d = 315532800000 + secs * 1000.

(** Both dates of the tick, when they are not null, are wire dates. *)
Definition dated (tick : FeedData) : Prop :=
  ∀ d, Timestamp tick = Some (Some d) ∨ LastTradeTime tick = Some (Some d) →
       wire_date d.

Section Dates.

Context (this : MTicker) (view : DataView.t) (offset : Z).

Lemma unixToDateTime_wire (off : Z) :
  wire_date (Utils.unixToDateTime (raw32 view off)).
Proof. exists (raw32 view off). split; [apply raw32_range|reflexivity]. Qed.

Local Ltac dated_done H :=
  injection H as <-; intros d [Hd|Hd]; simpl in Hd;
  try discriminate Hd; injection Hd as <-; apply unixToDateTime_wire.

Lemma readModeBasedData_dated length tick :
  readModeBasedData this view offset length = Some tick → dated tick.
Proof.
intros H. unfold readModeBasedData in H.
apply bind_Some in H. destruct H as (token & Etoken & H).
destruct (getTokenMode this token).
- unfold createLTPFromPacket in H. unread H. dated_done H.
- unfold createQuoteFromPacket in H. unread H. dated_done H.
- destruct (length =? 44).
  + unfold readQuote in H. unread H. dated_done H.
  + unfold readFullFeed in H. unread H. dated_done H.
Qed.

Lemma parseTickData_dated length tick :
  fst (parseTickData this view offset length) = Some tick → dated tick.
Proof.
intros H. apply parseTickData_reader in H.
pose proof (dispatch_supported _ _ _ _ _ H) as Hs.
destruct Hs as [->|[->|[->|Hm]]].
- injection H as H. unfold readLTPBroadcast in H. unread H. dated_done H.
- injection H as H. unfold readQuoteIndex in H. unread H. dated_done H.
- injection H as H. unfold readFullIndex in H. unread H.
  destruct (getTokenMode this (raw32 view offset)); dated_done H.
- assert (Hd : dispatch this view offset length
               = Some (readModeBasedData this view offset length)).
  { destruct Hm as [->|[->| ->]]; reflexivity. }
  rewrite Hd in H. injection H as H.
  eapply readModeBasedData_dated, H.
Qed.

End Dates.

(** X14.  A date in a tick, be it [Timestamp] or [LastTradeTime], is
    null or a whole number of seconds after 1980-01-01T00:00:00Z, fewer
    than 2^32 of them: it lies between 1980 and 2116 and is never an
    invalid date.  [unixToDateTime] keeps the order of its arguments. *)
Theorem tick_dates_since_1980 :
  ∀ (this : MTicker) (view : DataView.t) (offset length : Z)
    (tick : FeedData) (d : Utils.Date),
    fst (parseTickData this view offset length) = Some tick →
    Timestamp tick = Some (Some d) ∨ LastTradeTime tick = Some (Some d) →
    (∃ secs, 0 <= secs < 2 ^ 32 ∧ d = Utils.unixToDateTime secs)
    ∧ Utils.days_from_civil 1980 1 1 * 86400000 <= d
      < Utils.days_from_civil 2116 2 8 * 86400000
    ∧ (∀ a b, a < b → Utils.unixToDateTime a < Utils.unixToDateTime b).
Proof.
intros this view offset length tick d H Hd.
destruct (parseTickData_dated this view offset length tick H d Hd)
  as (secs & Hsecs & ->).
split; [exists secs; split; [exact Hsecs|reflexivity]|].
split.
- change (Utils.days_from_civil 1980 1 1 * 86400000) with 315532800000.
  change (Utils.days_from_civil 2116 2 8 * 86400000) with 4610563200000.
  change (2 ^ 32) with 4294967296 in Hsecs. lia.
- intros a b Hab. unfold Utils.unixToDateTime. lia.
Qed.

Lemma tick_dates_since_1980_witness :
  fst (parseTickData Fixture.fresh index_frame 4 32)
  = Some (index_full index_frame 4)
  ∧ Timestamp (index_full index_frame 4) = Some (Some 315619200000)
  ∧ ∃ secs, 0 <= secs < 2 ^ 32 ∧ 315619200000 = Utils.unixToDateTime secs.
Proof.
assert (H : fst (parseTickData Fixture.fresh index_frame 4 32)
            = Some (index_full index_frame 4)) by (vm_compute; reflexivity).
assert (Hd : Timestamp (index_full index_frame 4) = Some (Some 315619200000))
  by (vm_compute; reflexivity).
split; [exact H|]. split; [exact Hd|].
exact (proj1 (tick_dates_since_1980 Fixture.fresh index_frame 4 32 _ _ H
                (or_introl Hd))).
Defined.

(** ** What the decoder reads of the client *)

Section DecoderFrame.

Context (this this' : MTicker) (view : DataView.t).

Lemma dispatch_same_mode offset length :
  getTokenMode this (raw32 view offset) = getTokenMode this' (raw32 view offset) →
  dispatch this view offset length = dispatch this' view offset length.
Proof.
intros Hm.
assert (Hi : readFullIndex this view offset = readFullIndex this' view offset).
{ unfold readFullIndex.
  destruct (getUint32 view offset) as [token|] eqn:E; simpl; [|reflexivity].
  apply getUint32_Some in E. destruct E as (-> & _). rewrite Hm. reflexivity. }
assert (Hr : readModeBasedData this view offset length
             = readModeBasedData this' view offset length).
{ unfold readModeBasedData.
  destruct (getUint32 view offset) as [token|] eqn:E; simpl; [|reflexivity].
  apply getUint32_Some in E. destruct E as (-> & _). rewrite Hm. reflexivity. }
destruct (decide (supported length)) as [Hs|Hs].
- destruct Hs as [->|[->|[->|[->|[->| ->]]]]];
    unfold dispatch; rewrite ?Hi, ?Hr; reflexivity.
- rewrite !dispatch_unsupported by exact Hs. reflexivity.
Qed.

Lemma parseTickData_same_mode offset length :
  getTokenMode this (raw32 view offset) = getTokenMode this' (raw32 view offset) →
  parseTickData this view offset length = parseTickData this' view offset length.
Proof.
intros Hm. unfold parseTickData. rewrite (dispatch_same_mode _ _ Hm).
reflexivity.
Qed.

End DecoderFrame.

(** X15.  The decoder reads one thing of the client: the requested mode
    of the identifier in the first four bytes of the record.  Two
    clients that agree on it decode the record alike; so a record is
    decoded after any calls and events as it was before them, unless a
    [setMode] among them named its identifier; and records of 8 and 28
    bytes are decoded alike by all clients. *)
Theorem decoder_reads_only_the_mode :
  ∀ (this this' : MTicker) (es : list event) (view : DataView.t)
    (offset length : Z),
    (getTokenMode this (raw32 view offset)
     = getTokenMode this' (raw32 view offset) →
     parseTickData this view offset length
     = parseTickData this' view offset length)
    ∧ (Forall (λ e, ∀ m tokens,
                 e = CallSetMode m tokens → raw32 view offset ∉ tokens) es →
       parseTickData (run es this) view offset length
       = parseTickData this view offset length)
    ∧ parseTickData this view offset 8 = parseTickData this' view offset 8
    ∧ parseTickData this view offset 28 = parseTickData this' view offset 28.
Proof.
intros this this' es view offset length.
split; [apply parseTickData_same_mode|].
split; [|split; reflexivity].
intros Hes. apply parseTickData_same_mode.
revert this. induction Hes as [|e es He _ IH]; intros this; [reflexivity|].
change (run (e :: es) this) with (run es (step this e)).
rewrite IH, step_getTokenMode.
destruct e; try reflexivity. simpl.
rewrite decide_False; [reflexivity|]. eapply He. reflexivity.
Qed.

Lemma decoder_reads_only_the_mode_witness :
  Forall (λ e, ∀ m tokens,
            e = CallSetMode m tokens → raw32 full_200_frame 4 ∉ tokens)
    [CallSetMode Ltp [2885]; CallSubscribeWithMode Ltp [5633]; CallDisconnect]
  ∧ parseTickData
      (run [CallSetMode Ltp [2885]; CallSubscribeWithMode Ltp [5633];
            CallDisconnect] connected) full_200_frame 4 200
    = parseTickData connected full_200_frame 4 200.
Proof.
assert (Hes : Forall (λ e, ∀ m tokens,
                        e = CallSetMode m tokens →
                        raw32 full_200_frame 4 ∉ tokens)
                [CallSetMode Ltp [2885]; CallSubscribeWithMode Ltp [5633];
                 CallDisconnect]).
{ repeat constructor; intros m tokens [=]; subst.
  change (raw32 full_200_frame 4) with 5633.
  intros Hin. apply list_elem_of_In in Hin. simpl in Hin.
  destruct Hin as [Hin|[]]. discriminate Hin. }
split; [exact Hes|].
destruct (decoder_reads_only_the_mode connected connected
            [CallSetMode Ltp [2885]; CallSubscribeWithMode Ltp [5633];
             CallDisconnect] full_200_frame 4 200) as (_ & H & _).
exact (H Hes).
Defined.

(** ** The record count of a frame *)

Section RecordCount.

Context (this : MTicker) (view : DataView.t).

Lemma parseRecords_S (count : nat) (offset : Z) :
  parseRecords this view (S count) offset =
    if byteLength view <=? offset then ([], Normal)
    else
      match getUint16 view offset with
      | None => ([], Thrown)
      | Some len =>
          (snd (parseTickData this view (offset + 2) len)
             ++ called (fst (parseTickData this view (offset + 2) len))
             ++ fst (parseRecords this view count (offset + 2 + len)),
           snd (parseRecords this view count (offset + 2 + len)))
      end.
Proof.
cbn [parseRecords].
destruct (byteLength view <=? offset); [reflexivity|].
destruct (getUint16 view offset) as [len|]; [|reflexivity].
destruct (parseTickData this view (offset + 2) len) as [tick logged].
destruct (parseRecords this view count (offset + 2 + len)) as [rest c].
reflexivity.
Qed.

Lemma parseRecords_more (count : nat) :
  ∀ (offset : Z),
    ∃ more,
      fst (parseRecords this view (S count) offset)
      = fst (parseRecords this view count offset) ++ more
      ∧ (snd (parseRecords this view count offset) = Thrown →
         parseRecords this view (S count) offset
         = parseRecords this view count offset).
Proof.
induction count as [|count IH]; intros offset.
- eexists. split; [reflexivity|]. intros [=].
- rewrite (parseRecords_S (S count)), (parseRecords_S count).
  destruct (byteLength view <=? offset).
  { exists []. split; [reflexivity|]. intros [=]. }
  destruct (getUint16 view offset) as [len|].
  2:{ exists []. split; [reflexivity|]. auto. }
  destruct (IH (offset + 2 + len)) as (more & Hmore & Hthrown).
  exists more. cbn [fst snd]. split.
  + rewrite Hmore, !app_assoc. reflexivity.
  + intros Ht. rewrite (Hthrown Ht). reflexivity.
Qed.

Lemma parseRecords_prefix (count extra : nat) (offset : Z) :
  fst (parseRecords this view count offset)
  `prefix_of` fst (parseRecords this view (count + extra) offset).
Proof.
induction extra as [|extra IH].
- rewrite Nat.add_0_r. reflexivity.
- rewrite Nat.add_succ_r.
  destruct (parseRecords_more (count + extra) offset) as (more & -> & _).
  etransitivity; [exact IH|]. apply prefix_app_r. reflexivity.
Qed.

End RecordCount.

(** X16.  The record count of a frame only bounds the loop: what the
    first records give does not depend on it.  With a larger count the
    decoder has the same effects in the same order, followed by those
    of the further records; when the loop threw, a larger count changes
    nothing; and a loop that starts at or past the end of the buffer
    does nothing, whatever the count. *)
Theorem record_count_only_bounds :
  ∀ (this : MTicker) (view : DataView.t) (count extra : nat) (offset : Z),
    fst (parseRecords this view count offset)
    `prefix_of` fst (parseRecords this view (count + extra) offset)
    ∧ (snd (parseRecords this view count offset) = Thrown →
       parseRecords this view (count + extra) offset
       = parseRecords this view count offset)
    ∧ (byteLength view <= offset →
       parseRecords this view (count + extra) offset = ([], Normal)).
Proof.
intros this view count extra offset.
split; [apply parseRecords_prefix|]. split.
- intros Ht. induction extra as [|extra IH].
  + rewrite Nat.add_0_r. reflexivity.
  + rewrite Nat.add_succ_r.
    destruct (parseRecords_more this view (count + extra) offset)
      as (_ & _ & Hsame).
    rewrite Hsame; [exact IH|]. rewrite IH. exact Ht.
- intros Hend. apply parseRecords_end, Hend.
Qed.

Lemma record_count_only_bounds_witness :
  byteLength ltp_frame <= 12
  ∧ parseRecords Fixture.fresh ltp_frame (1 + 7) 12 = ([], Normal).
Proof.
assert (Hend : byteLength ltp_frame <= 12) by (vm_compute; discriminate).
split; [exact Hend|].
exact (proj2 (proj2 (record_count_only_bounds Fixture.fresh ltp_frame 1 7 12))
         Hend).
Defined.
